(** * IP-Adapter and LoRA bookkeeping of the diffusers loaders

    A shallow embedding of [src/diffusers/loaders/ip_adapter.py]
    (class [IPAdapterMixin]: [load_ip_adapter], [set_ip_adapter_scale],
    [unload_ip_adapter]) and of the helper [check_if_lora_correctly_set]
    of [tests/lora/test_lora_layers_peft.py].

    Python objects that the code mutates are modelled by explicit state
    passing: every method takes the pipeline and returns the pipeline
    it leaves behind, together with the outcome of the call (a normal
    return or the exception that was raised). *)

From Stdlib Require Import Ascii String.
From Stdlib Require OrderedTypeEx.
From stdpp Require Import base option list strings gmap pretty sorting.

Local Open Scope string_scope.
Local Open Scope list_scope.

(** ** Exceptions and outcomes *)

Inductive exn : Type :=
  | ValueError (msg : string)
  | NotImplementedError (msg : string).

Inductive outcome (A : Type) : Type :=
  | Returns (a : A)
  | Raises (e : exn).
Arguments Returns {A} a.
Arguments Raises {A} e.

Definition is_ValueError {A} (o : outcome A) : Prop :=
  match o with
  | Raises (ValueError _) => True
  | _ => False
  end.

Definition returns {A} (o : outcome A) : Prop :=
  match o with
  | Returns _ => True
  | Raises _ => False
  end.

(** ** Python string methods used by the loader *)

Module PyStr.

(** [s.startswith(p)] *)
Definition startswith (s p : string) : bool := String.prefix p s.

(** [s.endswith(p)] *)
Definition endswith (s p : string) : bool :=
  let n := String.length s in
  let k := String.length p in
  if (k <=? n)%nat then String.eqb (String.substring (n - k) k s) p else false.

(** Left-to-right scan of [s]; [skip] counts the characters of an
    occurrence of [old] that are still to be dropped. *)
Fixpoint replace_from (old new : string) (skip : nat) (s : string) : string :=
  match s with
  | EmptyString => EmptyString
  | String c rest =>
      match skip with
      | S k => replace_from old new k rest
      | O =>
          if String.prefix old s
          then new +:+ replace_from old new (String.length old - 1) rest
          else String c (replace_from old new 0 rest)
      end
  end.

(** An empty [old] matches before every character and at the end. *)
Fixpoint intersperse (new s : string) : string :=
  match s with
  | EmptyString => new
  | String c rest => new +:+ String c (intersperse new rest)
  end.

(** [s.replace(old, new)]: every non-overlapping occurrence. *)
Definition replace (s old new : string) : string :=
  match old with
  | EmptyString => intersperse new s
  | String _ _ => replace_from old new 0 s
  end.

(** [s.count(sub)] for a one-character [sub]. *)
Fixpoint count_char (s : string) (c : Ascii.ascii) : nat :=
  match s with
  | EmptyString => 0
  | String d rest => (if Ascii.eqb c d then 1 else 0) + count_char rest c
  end.

End PyStr.

(** ** Python dictionaries with insertion order

    A [dict] keeps its keys in insertion order and [list(d.keys())]
    exposes that order, which the required-keys check depends on, so a
    dictionary is an association list. *)

Module PyDict.

Definition t (V : Type) : Type := list (string * V).

Definition keys {V} (d : t V) : list string := d.*1.

Fixpoint get {V} (d : t V) (k : string) : option V :=
  match d with
  | [] => None
  | (k', v) :: rest => if String.eqb k k' then Some v else get rest k
  end.

(** [d[k] = v]: overwrite in place, or append a new key. *)
Fixpoint set {V} (d : t V) (k : string) (v : V) : t V :=
  match d with
  | [] => [(k, v)]
  | (k', v') :: rest =>
      if String.eqb k k' then (k', v) :: rest else (k', v') :: set rest k v
  end.

(** Mutation of the object stored under [k] (as in [d[k][j] = x],
    which looks [d[k]] up and mutates it). *)
Fixpoint update {V} (d : t V) (k : string) (f : V → V) : t V :=
  match d with
  | [] => []
  | (k', v') :: rest =>
      if String.eqb k k' then (k', f v') :: rest else (k', v') :: update rest k f
  end.

End PyDict.

(** ** The pipeline object *)

(** The value of a pipeline attribute: [None] or a registered module,
    of which only the class and the place it was loaded from matter. *)
Inductive pyobj : Type :=
  | PyNone
  | PyModule (cls : string) (origin : string).

Definition is_none (o : pyobj) : bool :=
  match o with
  | PyNone => true
  | PyModule _ _ => false
  end.

(** Entries of the pipeline configuration. *)
Inductive cfgval : Type :=
  | CfgNone
  | CfgStr (s : string)
  | CfgPair (library class_name : option string).

(** An argument that is a list or a single non-list value. *)
Inductive or_list (A : Type) : Type :=
  | One (a : A)
  | Many (l : list A).
Arguments One {A} a.
Arguments Many {A} l.

Section Loaders.

(** Tensors and conditioning scales are opaque to the loader: it
    stores and moves them and never computes with them. *)
Context {Tensor Scale : Type}.

(** The attention processors of the UNet. The two IP-Adapter classes
    carry a [scale] attribute, a list with one entry per adapter. *)
Inductive attn_processor : Type :=
  | AttnProcessor
  | IPAdapterAttnProcessor (scale : list Scale)
  | IPAdapterAttnProcessor2_0 (scale : list Scale)
  | OtherAttnProcessor (cls : string).

(** A top-level entry of a state dict is itself a dict of tensors. *)
Definition StateDict : Type := PyDict.t (PyDict.t Tensor).

Record UNet : Type := mkUNet {
  encoder_hid_proj : pyobj;
  attn_processors : PyDict.t attn_processor;
  ip_adapter_weights : list StateDict
}.

(** [attrs] is the instance dictionary restricted to the optional
    components, so that [hasattr] is definedness of a key. *)
Record Pipeline : Type := mkPipeline {
  attrs : gmap string pyobj;
  unet : UNet;
  config : gmap string cfgval
}.

Definition hasattr (self : Pipeline) (name : string) : bool :=
  bool_decide (is_Some (attrs self !! name)).

Definition getattr (self : Pipeline) (name : string) (dflt : pyobj) : pyobj :=
  default dflt (attrs self !! name).

Definition setattr (self : Pipeline) (name : string) (v : pyobj) : Pipeline :=
  mkPipeline (<[name := v]> (attrs self)) (unet self) (config self).

Definition register_to_config (self : Pipeline) (name : string) (v : cfgval) : Pipeline :=
  mkPipeline (attrs self) (unet self) (<[name := v]> (config self)).

(** [self.config.name = v], an attribute assignment on the
    configuration object. *)
Definition set_config_attr (self : Pipeline) (name : string) (v : cfgval) : Pipeline :=
  mkPipeline (attrs self) (unet self) (<[name := v]> (config self)).

Definition set_unet (self : Pipeline) (u : UNet) : Pipeline :=
  mkPipeline (attrs self) u (config self).

(** Modelled from the spec: [UNet2DConditionModel.set_default_attn_processor]
    is not part of the sources at hand; the unload postcondition
    describes it as resetting the UNet's attention processors to the
    defaults, so every entry of [attn_processors] becomes the default
    processor and nothing else of the UNet changes. *)
Definition set_default_attn_processor (u : UNet) : UNet :=
  mkUNet (encoder_hid_proj u)
         ((λ kp, (kp.1, AttnProcessor)) <$> attn_processors u)
         (ip_adapter_weights u).

(** *** [IPAdapterMixin.unload_ip_adapter] *)

Definition unload_ip_adapter (self : Pipeline) : Pipeline :=
  (* remove CLIP image encoder *)
  let self :=
    if hasattr self "image_encoder" && negb (is_none (getattr self "image_encoder" PyNone))
    then register_to_config (setattr self "image_encoder" PyNone)
                            "image_encoder" (CfgPair None None)
    else self in
  (* remove feature extractor only when there is no safety_checker *)
  let self :=
    if negb (hasattr self "safety_checker")
    then
      if hasattr self "feature_extractor"
         && negb (is_none (getattr self "feature_extractor" PyNone))
      then register_to_config (setattr self "feature_extractor" PyNone)
                              "feature_extractor" (CfgPair None None)
      else self
    else self in
  (* remove hidden encoder *)
  let self :=
    set_unet self (mkUNet PyNone (attn_processors (unet self))
                          (ip_adapter_weights (unet self))) in
  let self := set_config_attr self "encoder_hid_dim_type" CfgNone in
  (* restore original Unet attention processors layers *)
  set_unet self (set_default_attn_processor (unet self)).

(** *** [IPAdapterMixin.set_ip_adapter_scale] *)

(** The [scale] argument: a list, or any other value. *)
Inductive scale_arg : Type :=
  | ScaleValue (v : Scale)
  | ScaleList (l : list Scale).

(** [isinstance(p, (IPAdapterAttnProcessor, IPAdapterAttnProcessor2_0))],
    giving [p.scale] when it holds. *)
Definition ip_adapter_scale (p : attn_processor) : option (list Scale) :=
  match p with
  | IPAdapterAttnProcessor s | IPAdapterAttnProcessor2_0 s => Some s
  | AttnProcessor | OtherAttnProcessor _ => None
  end.

(** [p.scale = s] *)
Definition assign_scale (p : attn_processor) (s : list Scale) : attn_processor :=
  match p with
  | IPAdapterAttnProcessor _ => IPAdapterAttnProcessor s
  | IPAdapterAttnProcessor2_0 _ => IPAdapterAttnProcessor2_0 s
  | AttnProcessor | OtherAttnProcessor _ => p
  end.

Definition scale_length_error (expected got : nat) : exn :=
  ValueError ("`scale` should be a list of same length as the number if ip-adapters "
              +:+ "Expected " +:+ pretty expected +:+ " but got " +:+ pretty got +:+ ".").

(** The loop over [unet.attn_processors.values()]. The local variable
    [scale] is rebound inside the loop, so the value it has after one
    iteration is the one the next iteration sees; processors already
    assigned keep their new scale when a later iteration raises. *)
Fixpoint set_scale_loop (procs : PyDict.t attn_processor) (scale : scale_arg)
  : PyDict.t attn_processor * outcome unit :=
  match procs with
  | [] => ([], Returns ())
  | (name, p) :: rest =>
      match ip_adapter_scale p with
      | Some current =>
          let scale :=
            match scale with
            | ScaleList l => l
            | ScaleValue v => replicate (length current) v
            end in
          if negb (length current =? length scale)%nat
          then ((name, p) :: rest,
                Raises (scale_length_error (length current) (length scale)))
          else
            let '(rest', r) := set_scale_loop rest (ScaleList scale) in
            ((name, assign_scale p scale) :: rest', r)
      | None =>
          let '(rest', r) := set_scale_loop rest scale in
          ((name, p) :: rest', r)
      end
  end.

(** The processors are reached through the pipeline's UNet, which is
    [self.unet] or [getattr(self, self.unet_name)]; both denote the
    field [unet] of the model. *)
Definition set_ip_adapter_scale (self : Pipeline) (scale : scale_arg)
  : Pipeline * outcome unit :=
  let u := unet self in
  let '(procs, r) := set_scale_loop (attn_processors u) scale in
  (set_unet self (mkUNet (encoder_hid_proj u) procs (ip_adapter_weights u)), r).

(** *** [IPAdapterMixin.load_ip_adapter] *)

(** What the loader calls but does not define: the model hub, the two
    checkpoint readers, module registration and the UNet's own weight
    loader. *)
Record Env : Type := mkEnv {
  is_accelerate_available : bool;
  is_torch_version_ge_1_9_0 : bool;
  (* _get_model_file(name, weights_name=..., subfolder=..., ...) *)
  get_model_file : string → string → string → string;
  (* safe_open(model_file, ...).keys() and .get_tensor(key) *)
  safe_open_keys : string → list string;
  safe_open_get_tensor : string → string → Tensor;
  (* torch.load(model_file, map_location=cpu) *)
  torch_load : string → StateDict;
  (* Path(part, ...).as_posix() *)
  path_as_posix : list string → string;
  (* CLIPVisionModelWithProjection.from_pretrained(name, subfolder=...,
     low_cpu_mem_usage=...).to(self.device, dtype=self.dtype) *)
  from_pretrained : string → string → bool → pyobj;
  (* CLIPImageProcessor() *)
  new_CLIPImageProcessor : pyobj;
  (* self.register_modules(name=module) *)
  register_modules : Pipeline → string → pyobj → Pipeline;
  (* unet._load_ip_adapter_weights(state_dicts, low_cpu_mem_usage=...) *)
  load_ip_adapter_weights : UNet → list StateDict → bool → UNet
}.

(** An element of [pretrained_model_name_or_path_or_dict]. *)
Inductive source : Type :=
  | SrcName (name : string)
  | SrcDict (state_dict : StateDict).

(** [if not isinstance(x, list): x = [x]] *)
Definition as_list {A} (x : or_list A) : list A :=
  match x with
  | One a => [a]
  | Many l => l
  end.

(** [l * n] on Python lists *)
Definition list_mul {A} (l : list A) (n : nat) : list A := mjoin (replicate n l).

(** [if len(l) == 1: l = l * n] *)
Definition broadcast {A} (l : list A) (n : nat) : list A :=
  if (length l =? 1)%nat then list_mul l n else l.

Definition weight_name_length_error : exn :=
  ValueError "`weight_name` and `pretrained_model_name_or_path_or_dict` must have the same length.".

Definition subfolder_length_error : exn :=
  ValueError "`weight_name` and `subfolder` must have the same length.".

(** Lines 110 to 127: the list inputs for multiple IP Adapters. *)
Definition broadcast_args (pretrained : or_list source) (subfolder weight_name : or_list string)
  : outcome (list source * list string * list string) :=
  let weight_name := as_list weight_name in
  let pretrained := broadcast (as_list pretrained) (length weight_name) in
  let subfolder := broadcast (as_list subfolder) (length weight_name) in
  if negb (length weight_name =? length pretrained)%nat
  then Raises weight_name_length_error
  else if negb (length weight_name =? length subfolder)%nat
  then Raises subfolder_length_error
  else Returns (pretrained, weight_name, subfolder).

Definition low_cpu_mem_error : exn :=
  NotImplementedError
    ("Low memory initialization requires torch >= 1.9.0. Please either update your PyTorch version or set"
     +:+ " `low_cpu_mem_usage=False`.").

Definition resolve_low_cpu_mem_usage (E : Env) (low_cpu_mem_usage : bool) : outcome bool :=
  let low_cpu_mem_usage :=
    if low_cpu_mem_usage && negb (is_accelerate_available E)
    then false else low_cpu_mem_usage in
  if low_cpu_mem_usage && negb (is_torch_version_ge_1_9_0 E)
  then Raises low_cpu_mem_error
  else Returns low_cpu_mem_usage.

Definition required_keys : list string := ["image_proj"; "ip_adapter"].

Definition required_keys_error : exn :=
  ValueError "Required keys are (`image_proj` and `ip_adapter`) missing from the state dict.".

Definition image_encoder_error : exn :=
  ValueError "`image_encoder` cannot be loaded because `pretrained_model_name_or_path_or_dict` is a state dict.".

(** One iteration of [for key in f.keys()] on a safetensors file. *)
Definition safetensors_step (E : Env) (model_file : string)
    (state_dict : StateDict) (key : string) : StateDict :=
  if PyStr.startswith key "image_proj."
  then PyDict.update state_dict "image_proj"
         (λ d, PyDict.set d (PyStr.replace key "image_proj." "")
                            (safe_open_get_tensor E model_file key))
  else if PyStr.startswith key "ip_adapter."
  then PyDict.update state_dict "ip_adapter"
         (λ d, PyDict.set d (PyStr.replace key "ip_adapter." "")
                            (safe_open_get_tensor E model_file key))
  else state_dict.

Definition load_safetensors (E : Env) (model_file : string) : StateDict :=
  foldl (safetensors_step E model_file)
        [("image_proj", []); ("ip_adapter", [])]
        (safe_open_keys E model_file).

(** The keys of a safetensors file that one of the two branches of
    the loop takes. *)
Definition has_adapter_prefix (key : string) : bool :=
  PyStr.startswith key "image_proj." || PyStr.startswith key "ip_adapter.".

(** Lines 162 to 187: the state dict of one adapter. *)
Definition read_state_dict (E : Env) (src : source) (weight_name subfolder : string)
  : StateDict :=
  match src with
  | SrcName name =>
      let model_file := get_model_file E name weight_name subfolder in
      if PyStr.endswith weight_name ".safetensors"
      then load_safetensors E model_file
      else torch_load E model_file
  | SrcDict state_dict => state_dict
  end.

(** Lines 195 to 219: load the CLIP image encoder if the pipeline
    has the attribute and it is still [None]. *)
Definition load_image_encoder (E : Env) (image_encoder_folder : option string)
    (low_cpu_mem_usage : bool) (self : Pipeline) (src : source) (subfolder : string)
  : outcome Pipeline :=
  if hasattr self "image_encoder" && is_none (getattr self "image_encoder" PyNone)
  then
    match image_encoder_folder with
    | Some folder =>
        match src with
        | SrcName name =>
            let image_encoder_subfolder :=
              if (PyStr.count_char folder "/"%char =? 0)%nat
              then path_as_posix E [subfolder; folder]
              else path_as_posix E [folder] in
            let image_encoder :=
              from_pretrained E name image_encoder_subfolder low_cpu_mem_usage in
            Returns (register_modules E self "image_encoder" image_encoder)
        | SrcDict _ => Raises image_encoder_error
        end
    | None => Returns self
    end
  else Returns self.

(** The body of the loop over the zipped arguments. The state is the
    pipeline and the list [state_dicts]. *)
Definition load_one (E : Env) (image_encoder_folder : option string)
    (low_cpu_mem_usage : bool) (st : Pipeline * list StateDict)
    (item : source * string * string)
  : (Pipeline * list StateDict) * outcome unit :=
  let '(self, state_dicts) := st in
  let '(src, weight_name, subfolder) := item in
  let state_dict := read_state_dict E src weight_name subfolder in
  let keys := PyDict.keys state_dict in
  if negb (bool_decide (keys = required_keys))
  then ((self, state_dicts), Raises required_keys_error)
  else
    let state_dicts := state_dicts ++ [state_dict] in
    match load_image_encoder E image_encoder_folder low_cpu_mem_usage self src subfolder with
    | Raises e => ((self, state_dicts), Raises e)
    | Returns self =>
        (* create feature extractor if it has not been registered yet *)
        let self :=
          if hasattr self "feature_extractor"
             && is_none (getattr self "feature_extractor" PyNone)
          then register_modules E self "feature_extractor" (new_CLIPImageProcessor E)
          else self in
        ((self, state_dicts), Returns ())
    end.

(** An item of the loop that is read from a safetensors file: the
    source is not a dict and the weight name has the suffix. *)
Definition reads_safetensors (item : source * string * string) : bool :=
  match item with
  | (SrcName _, weight_name, _) => PyStr.endswith weight_name ".safetensors"
  | (SrcDict _, _, _) => false
  end.

(** The state dict of an item of the loop. *)
Definition read_item (E : Env) (item : source * string * string) : StateDict :=
  read_state_dict E item.1.1 item.1.2 item.2.

(** The required-keys check on the state dict of an item. *)
Definition has_required_keys (E : Env) (item : source * string * string) : Prop :=
  PyDict.keys (read_item E item) = required_keys.

Fixpoint load_loop (E : Env) (image_encoder_folder : option string)
    (low_cpu_mem_usage : bool) (st : Pipeline * list StateDict)
    (items : list (source * string * string))
  : (Pipeline * list StateDict) * outcome unit :=
  match items with
  | [] => (st, Returns ())
  | item :: rest =>
      match load_one E image_encoder_folder low_cpu_mem_usage st item with
      | (st', Returns _) => load_loop E image_encoder_folder low_cpu_mem_usage st' rest
      | (st', Raises e) => (st', Raises e)
      end
  end.

(** [zip(a, b, c)] *)
Fixpoint zip3 {A B C} (a : list A) (b : list B) (c : list C) : list (A * B * C) :=
  match a, b, c with
  | x :: a', y :: b', z :: c' => (x, y, z) :: zip3 a' b' c'
  | _, _, _ => []
  end.

Definition load_ip_adapter (E : Env) (self : Pipeline)
    (pretrained_model_name_or_path_or_dict : or_list source)
    (subfolder weight_name : or_list string)
    (image_encoder_folder : option string) (low_cpu_mem_usage : bool)
  : Pipeline * outcome unit :=
  match broadcast_args pretrained_model_name_or_path_or_dict subfolder weight_name with
  | Raises e => (self, Raises e)
  | Returns (pretrained, weight_name, subfolder) =>
      match resolve_low_cpu_mem_usage E low_cpu_mem_usage with
      | Raises e => (self, Raises e)
      | Returns low_cpu_mem_usage =>
          match load_loop E image_encoder_folder low_cpu_mem_usage (self, [])
                          (zip3 pretrained weight_name subfolder) with
          | ((self, _), Raises e) => (self, Raises e)
          | ((self, state_dicts), Returns _) =>
              (* load ip-adapter into unet *)
              (set_unet self
                 (load_ip_adapter_weights E (unet self) state_dicts low_cpu_mem_usage),
               Returns ())
          end
      end
  end.

(** ** LoRA layers, as the tests of the LoRA loader see them *)

(** Weights and activations are tensors of the framework; the three
    operations are its tensor arithmetic. *)
Context {Weight Act : Type}.
Context (weight_add : Weight → Weight → Weight).
Context (linear : Weight → Act → Act).
Context (act_add : Act → Act → Act).

(** A module of a model: an ordinary layer, or a tuner layer (a
    [BaseTunerLayer]) that wraps a base layer and holds the delta
    weight of every attached adapter. *)
Inductive nn_module : Type :=
  | PlainLayer (weight : Weight)
  | TunerLayer (base : Weight) (adapters : list Weight) (merged : bool).

(** [isinstance(module, BaseTunerLayer)] *)
Definition is_tuner_layer (m : nn_module) : bool :=
  match m with
  | PlainLayer _ => false
  | TunerLayer _ _ _ => true
  end.

(** [PeftLoraLoaderMixinTests.check_if_lora_correctly_set], over the
    list [model.modules()]. *)
Fixpoint check_if_lora_correctly_set (modules : list nn_module) : bool :=
  match modules with
  | [] => false
  | module :: rest =>
      if is_tuner_layer module then true else check_if_lora_correctly_set rest
  end.

(** The weight the base computation of a module uses. *)
Definition base_weight (m : nn_module) : Weight :=
  match m with
  | PlainLayer w => w
  | TunerLayer base _ _ => base
  end.

(** The delta weights that are still computed on a path of their own. *)
Definition separate_adapters (m : nn_module) : list Weight :=
  match m with
  | PlainLayer _ => []
  | TunerLayer _ adapters merged => if merged then [] else adapters
  end.

(** The output of a module: the base computation plus one term for
    every adapter on a separate path. *)
Definition forward (m : nn_module) (x : Act) : Act :=
  foldl (λ y delta, act_add y (linear delta x)) (linear (base_weight m) x)
        (separate_adapters m).

(** Modelled from the spec: [fuse_lora] is not part of the sources at
    hand (only its tests are). The glossary describes fusing as
    merging adapter delta weights directly into base weights,
    removing the separate adapter computation path; the tests add that
    the LoRA layers are still there afterwards. *)
Definition fuse_module (m : nn_module) : nn_module :=
  match m with
  | PlainLayer w => PlainLayer w
  | TunerLayer base adapters merged =>
      if merged then m
      else TunerLayer (foldl weight_add base adapters) adapters true
  end.

Definition fuse_lora (modules : list nn_module) : list nn_module :=
  fuse_module <$> modules.

(** * Properties *)

(** ** Unloading an IP-Adapter *)

Lemma unload_ip_adapter_unet (self : Pipeline) :
  unet (unload_ip_adapter self)
  = mkUNet PyNone ((λ kp, (kp.1, AttnProcessor)) <$> attn_processors (unet self))
           (ip_adapter_weights (unet self)).
Proof.
  unfold unload_ip_adapter.
  repeat match goal with |- context [if ?b then _ else _] => destruct b end;
    reflexivity.
Qed.

Lemma getattr_fmap_none (self self' : Pipeline) (name : string) :
  attrs self' !! name = (λ _, PyNone) <$> attrs self !! name →
  getattr self' name PyNone = PyNone.
Proof.
  unfold getattr. intros ->. by destruct (attrs self !! name).
Qed.

Lemma hasattr_lookup (self : Pipeline) (name : string) :
  hasattr self name = match attrs self !! name with Some _ => true | None => false end.
Proof.
  unfold hasattr. destruct (attrs self !! name) as [v|].
  - apply bool_decide_eq_true_2. eauto.
  - apply bool_decide_eq_false_2. by intros [? ?].
Qed.

(** Evaluates the attribute tests of a method body once the lookups
    of the attributes it reads are known. *)
Ltac eval_attrs :=
  repeat first
    [ rewrite hasattr_lookup
    | progress unfold getattr, setattr, register_to_config, set_config_attr, set_unet
    | progress simpl
    | rewrite lookup_insert_eq
    | rewrite lookup_insert_ne by done
    | match goal with H : attrs _ !! _ = _ |- _ => rewrite H end ].

Lemma unload_ip_adapter_image_encoder (self : Pipeline) :
  attrs (unload_ip_adapter self) !! "image_encoder"
  = (λ _, PyNone) <$> attrs self !! "image_encoder".
Proof.
  unfold unload_ip_adapter.
  destruct (attrs self !! "image_encoder") as [[|cls origin]|] eqn:Himg;
    destruct (attrs self !! "safety_checker") as [sc|] eqn:Hsc;
    destruct (attrs self !! "feature_extractor") as [[|cls' origin']|] eqn:Hfe;
    eval_attrs; reflexivity.
Qed.

(** C5. After [unload_ip_adapter] the pipeline's [image_encoder] reads
    as [None] (and is an attribute set to [None] exactly when the
    attribute existed), the UNet's [encoder_hid_proj] is [None], the
    configuration's [encoder_hid_dim_type] is [None], and every
    attention processor of the UNet is the default one, under the
    same names as before. *)
Theorem unload_ip_adapter_postconditions (self : Pipeline) :
  let self' := unload_ip_adapter self in
  getattr self' "image_encoder" PyNone = PyNone
  ∧ attrs self' !! "image_encoder" = (λ _, PyNone) <$> attrs self !! "image_encoder"
  ∧ encoder_hid_proj (unet self') = PyNone
  ∧ config self' !! "encoder_hid_dim_type" = Some CfgNone
  ∧ attn_processors (unet self')
    = (λ kp, (kp.1, AttnProcessor)) <$> attn_processors (unet self)
  ∧ Forall (λ kp, kp.2 = AttnProcessor) (attn_processors (unet self')).
Proof.
  intros self'. subst self'.
  pose proof (unload_ip_adapter_image_encoder self) as Himg.
  split; [by eapply getattr_fmap_none|].
  split; [done|].
  rewrite unload_ip_adapter_unet. simpl.
  split; [done|]. split.
  - unfold unload_ip_adapter.
    repeat match goal with |- context [if ?b then _ else _] => destruct b end;
      simpl; by simplify_map_eq.
  - split; [done|]. apply Forall_fmap, Forall_forall. done.
Qed.

(** C6. [unload_ip_adapter] leaves the [feature_extractor] attribute
    and its configuration entry as they were whenever the pipeline has
    a [safety_checker] attribute, whatever its value; the attribute
    is set to [None] only on a pipeline without that attribute. *)
Theorem unload_ip_adapter_feature_extractor (self : Pipeline) :
  let self' := unload_ip_adapter self in
  attrs self' !! "feature_extractor"
  = (if hasattr self "safety_checker"
     then attrs self !! "feature_extractor"
     else (λ _, PyNone) <$> attrs self !! "feature_extractor")
  ∧ (if hasattr self "safety_checker"
     then config self' !! "feature_extractor" = config self !! "feature_extractor"
     else True).
Proof.
  intros self'. subst self'. unfold unload_ip_adapter.
  destruct (attrs self !! "image_encoder") as [[|cls origin]|] eqn:Himg;
    destruct (attrs self !! "safety_checker") as [sc|] eqn:Hsc;
    destruct (attrs self !! "feature_extractor") as [[|cls' origin']|] eqn:Hfe;
    eval_attrs; by rewrite ?lookup_insert_ne by done.
Qed.

(** ** Setting the IP-Adapter scale *)

Lemma set_scale_loop_skip (pre l : PyDict.t attn_processor) (scale : scale_arg) :
  Forall (λ kp, ip_adapter_scale kp.2 = None) pre →
  set_scale_loop (pre ++ l) scale
  = ((pre ++ (set_scale_loop l scale).1), (set_scale_loop l scale).2).
Proof.
  induction 1 as [|[name p] pre Hp _ IH]; simpl.
  - by destruct (set_scale_loop l scale).
  - simpl in Hp. rewrite Hp, IH. done.
Qed.

Lemma set_scale_loop_assign (mid l : PyDict.t attn_processor) (new : list Scale) :
  Forall (λ kp, ∀ s, ip_adapter_scale kp.2 = Some s → length s = length new) mid →
  set_scale_loop (mid ++ l) (ScaleList new)
  = ((((λ kp, (kp.1, assign_scale kp.2 new)) <$> mid)
       ++ (set_scale_loop l (ScaleList new)).1),
     (set_scale_loop l (ScaleList new)).2).
Proof.
  induction 1 as [|[name p] mid Hp _ IH]; simpl.
  - by destruct (set_scale_loop l (ScaleList new)).
  - simpl in Hp. destruct (ip_adapter_scale p) as [cur|] eqn:Hcur.
    + rewrite (Hp cur eq_refl), Nat.eqb_refl. simpl. by rewrite IH.
    + rewrite IH. by destruct p.
Qed.

(** C9. With a non-list [scale], the list that replaces it has the
    length of the scale of the first IP-Adapter processor met; when a
    later IP-Adapter processor has a scale of another length the call
    raises [ValueError], and the processors before it have already
    been given the new scale. *)
Theorem set_ip_adapter_scale_not_atomic (self : Pipeline)
    (pre mid rest : PyDict.t attn_processor) (name1 name2 : string)
    (p1 p2 : attn_processor) (s1 s2 : list Scale) (v : Scale) :
  attn_processors (unet self) = (pre ++ (name1, p1) :: mid ++ (name2, p2) :: rest) →
  Forall (λ kp, ip_adapter_scale kp.2 = None) pre →
  ip_adapter_scale p1 = Some s1 →
  Forall (λ kp, ∀ s, ip_adapter_scale kp.2 = Some s → length s = length s1) mid →
  ip_adapter_scale p2 = Some s2 →
  length s2 ≠ length s1 →
  let new := replicate (length s1) v in
  set_ip_adapter_scale self (ScaleValue v)
  = (set_unet self
       (mkUNet (encoder_hid_proj (unet self))
               (pre ++ (name1, assign_scale p1 new)
                    :: ((λ kp, (kp.1, assign_scale kp.2 new)) <$> mid)
                    ++ (name2, p2) :: rest)
               (ip_adapter_weights (unet self))),
     Raises (scale_length_error (length s2) (length s1))).
Proof.
  intros Hprocs Hpre Hp1 Hmid Hp2 Hlen new.
  assert (Hnew : length new = length s1) by apply length_replicate.
  unfold set_ip_adapter_scale. rewrite Hprocs.
  rewrite (set_scale_loop_skip _ _ _ Hpre). simpl.
  rewrite Hp1. fold new. rewrite Hnew, Nat.eqb_refl. simpl.
  rewrite set_scale_loop_assign by (by rewrite Hnew).
  simpl. rewrite Hp2. simpl. rewrite Hnew.
  destruct (Nat.eqb_spec (length s2) (length s1)) as [Heq|_]; [done|].
  reflexivity.
Qed.

(** ** Loading an IP-Adapter: the list arguments *)

Lemma length_list_mul {A} (l : list A) (n : nat) :
  length (list_mul l n) = n * length l.
Proof.
  unfold list_mul. induction n as [|n IH]; simpl; [done|].
  rewrite length_app, IH. done.
Qed.

Lemma broadcast_singleton {A} (x : A) (n : nat) :
  broadcast [x] n = replicate n x.
Proof.
  unfold broadcast, list_mul. simpl.
  induction n as [|n IH]; simpl; [done|]. by rewrite IH.
Qed.

Lemma broadcast_other {A} (l : list A) (n : nat) :
  length l ≠ 1 → broadcast l n = l.
Proof.
  unfold broadcast. intros Hl.
  by destruct (Nat.eqb_spec (length l) 1).
Qed.

Lemma broadcast_args_mismatch (pretrained : or_list source)
    (subfolder weight_name : or_list string) :
  let W := as_list weight_name in
  let P := broadcast (as_list pretrained) (length W) in
  let S := broadcast (as_list subfolder) (length W) in
  length P ≠ length W ∨ length S ≠ length W →
  broadcast_args pretrained subfolder weight_name = Raises weight_name_length_error
  ∨ broadcast_args pretrained subfolder weight_name = Raises subfolder_length_error.
Proof.
  intros W P S Hne. unfold broadcast_args. fold W. fold P. fold S.
  destruct (Nat.eqb_spec (length W) (length P)) as [HP|HP]; simpl; [|by left].
  destruct (Nat.eqb_spec (length W) (length S)) as [HS|HS]; simpl; [|by right].
  destruct Hne as [Hne|Hne]; congruence.
Qed.

Lemma broadcast_args_match (pretrained : or_list source)
    (subfolder weight_name : or_list string) :
  let W := as_list weight_name in
  let P := broadcast (as_list pretrained) (length W) in
  let S := broadcast (as_list subfolder) (length W) in
  length P = length W → length S = length W →
  broadcast_args pretrained subfolder weight_name = Returns (P, W, S).
Proof.
  intros W P S HP HS. unfold broadcast_args. fold W. fold P. fold S.
  by rewrite HP, HS, Nat.eqb_refl.
Qed.

(** C8. Non-list arguments are wrapped into one-element lists,
    one-element lists of sources and subfolders are repeated to the
    length of [weight_name], and when after that the sources or the
    subfolders differ in length from [weight_name] the call raises
    [ValueError] and leaves the pipeline as it was. *)
Theorem load_ip_adapter_broadcasting (E : Env) (self : Pipeline)
    (pretrained : or_list source) (subfolder weight_name : or_list string)
    (image_encoder_folder : option string) (low_cpu_mem_usage : bool) :
  let W := as_list weight_name in
  let P := broadcast (as_list pretrained) (length W) in
  let S := broadcast (as_list subfolder) (length W) in
  let call := load_ip_adapter E self pretrained subfolder weight_name
                              image_encoder_folder low_cpu_mem_usage in
  (∀ (src : source) (name : string),
      as_list (One src) = [src] ∧ as_list (One name) = [name])
  ∧ (∀ x, as_list pretrained = [x] → P = replicate (length W) x)
  ∧ (∀ y, as_list subfolder = [y] → S = replicate (length W) y)
  ∧ (length (as_list pretrained) ≠ 1 → P = as_list pretrained)
  ∧ (length (as_list subfolder) ≠ 1 → S = as_list subfolder)
  ∧ (length P ≠ length W ∨ length S ≠ length W →
       is_ValueError (broadcast_args pretrained subfolder weight_name)
       ∧ call.1 = self ∧ is_ValueError call.2)
  ∧ (length P = length W → length S = length W →
       broadcast_args pretrained subfolder weight_name = Returns (P, W, S)).
Proof.
  intros W P S call. subst call.
  split; [done|].
  split; [intros x Hx; subst P; rewrite Hx; apply broadcast_singleton|].
  split; [intros y Hy; subst S; rewrite Hy; apply broadcast_singleton|].
  split; [apply broadcast_other|].
  split; [apply broadcast_other|].
  split; [|apply broadcast_args_match].
  intros Hne. unfold load_ip_adapter.
  destruct (broadcast_args_mismatch pretrained subfolder weight_name Hne) as [-> | ->];
    done.
Qed.

(** ** Loading an IP-Adapter: the required keys *)

Lemma load_image_encoder_outcome (E : Env) (folder : option string) (low : bool)
    (self : Pipeline) (src : source) (subfolder : string) :
  returns (load_image_encoder E folder low self src subfolder)
  ∨ load_image_encoder E folder low self src subfolder = Raises image_encoder_error.
Proof.
  unfold load_image_encoder.
  destruct (hasattr self "image_encoder" && _); [|by left].
  destruct folder as [folder|]; [|by left].
  destruct src; [by left|by right].
Qed.

Lemma load_one_bad_keys (E : Env) (folder : option string) (low : bool)
    (self : Pipeline) (sds : list StateDict) (item : source * string * string) :
  ¬ has_required_keys E item →
  load_one E folder low (self, sds) item = ((self, sds), Raises required_keys_error).
Proof.
  destruct item as [[src w] sf]. unfold has_required_keys, load_one. simpl.
  intros Hbad. by rewrite bool_decide_eq_false_2.
Qed.

Lemma load_one_good_keys (E : Env) (folder : option string) (low : bool)
    (self : Pipeline) (sds : list StateDict) (item : source * string * string) :
  has_required_keys E item →
  (load_one E folder low (self, sds) item).1.2 = sds ++ [read_item E item]
  ∧ (load_one E folder low (self, sds) item).2 ≠ Raises required_keys_error.
Proof.
  destruct item as [[src w] sf]. unfold has_required_keys, load_one, read_item. simpl.
  intros Hgood. rewrite bool_decide_eq_true_2 by done. simpl.
  destruct (load_image_encoder_outcome E folder low self src sf) as [Hret|Hraise].
  - destruct (load_image_encoder E folder low self src sf); [done|destruct Hret].
  - rewrite Hraise. done.
Qed.

Lemma load_one_outcome (E : Env) (folder : option string) (low : bool)
    (st : Pipeline * list StateDict) (item : source * string * string) :
  (load_one E folder low st item).2 = Returns ()
  ∨ is_ValueError (load_one E folder low st item).2.
Proof.
  destruct st as [self sds], item as [[src w] sf]. unfold load_one.
  destruct (negb _); [by right|].
  destruct (load_image_encoder_outcome E folder low self src sf) as [Hret|Hraise].
  - destruct (load_image_encoder E folder low self src sf); [by left|destruct Hret].
  - rewrite Hraise. by right.
Qed.

Lemma load_loop_bad_keys (E : Env) (folder : option string) (low : bool)
    (items : list (source * string * string)) (st : Pipeline * list StateDict) :
  Exists (λ item, ¬ has_required_keys E item) items →
  is_ValueError (load_loop E folder low st items).2.
Proof.
  intros Hex. revert st.
  induction Hex as [item items Hbad|item items _ IH]; intros [self sds];
    cbn [load_loop].
  - by rewrite load_one_bad_keys.
  - pose proof (load_one_outcome E folder low (self, sds) item) as Hout.
    destruct (load_one E folder low (self, sds) item) as [st' [[]|e]];
      cbn [snd] in *.
    + apply IH.
    + by destruct Hout.
Qed.

Lemma load_loop_returns (E : Env) (folder : option string) (low : bool)
    (items : list (source * string * string)) (st : Pipeline * list StateDict) :
  returns (load_loop E folder low st items).2 →
  (load_loop E folder low st items).1.2 = st.2 ++ (read_item E <$> items)
  ∧ Forall (has_required_keys E) items.
Proof.
  revert st. induction items as [|item items IH]; intros [self sds];
    cbn [load_loop].
  - intros _. simpl. by rewrite app_nil_r.
  - destruct (decide (PyDict.keys (read_item E item) = required_keys)) as [Hgood|Hbad].
    + destruct (load_one_good_keys E folder low self sds item Hgood) as [Hsds _].
      destruct (load_one E folder low (self, sds) item) as [[self' sds'] [[]|e]];
        cbn [fst snd] in *; [|done].
      intros Hret. destruct (IH (self', sds') Hret) as [-> Hall]. cbn [fst snd].
      subst sds'. rewrite <- app_assoc. split; [done|by constructor].
    + by rewrite load_one_bad_keys.
Qed.

(** C7. In the loop of [load_ip_adapter], a state dict (read from a
    file or passed directly) whose list of top-level keys is not
    exactly [image_proj], [ip_adapter] makes the iteration raise
    [ValueError] before anything is appended, and with it the whole
    call once the arguments have passed the earlier guards; a state
    dict with exactly these keys is appended to [state_dicts], and when
    the call returns the UNet has been given the state dicts of all
    items, in order. *)
Theorem load_ip_adapter_required_keys (E : Env) (folder : option string) (low : bool)
    (self : Pipeline) (sds : list StateDict) (item : source * string * string) :
  let items p sf w :=
    zip3 (broadcast (as_list p) (length (as_list w))) (as_list w)
         (broadcast (as_list sf) (length (as_list w))) in
  (PyDict.keys (read_item E item) ≠ ["image_proj"; "ip_adapter"] →
     load_one E folder low (self, sds) item = ((self, sds), Raises required_keys_error)
     ∧ ∀ p sf w,
         item ∈ items p sf w →
         returns (resolve_low_cpu_mem_usage E low) →
         is_ValueError (load_ip_adapter E self p sf w folder low).2)
  ∧ (PyDict.keys (read_item E item) = ["image_proj"; "ip_adapter"] →
     (load_one E folder low (self, sds) item).1.2 = sds ++ [read_item E item]
     ∧ (load_one E folder low (self, sds) item).2 ≠ Raises required_keys_error)
  ∧ (∀ p sf w,
       returns (load_ip_adapter E self p sf w folder low).2 →
       Forall (has_required_keys E) (items p sf w)
       ∧ ∃ self' low',
           unet (load_ip_adapter E self p sf w folder low).1
           = load_ip_adapter_weights E (unet self') (read_item E <$> items p sf w) low').
Proof.
  intros items. split; [|split].
  - intros Hbad. split; [by apply load_one_bad_keys|].
    intros p sf w Hin Hlow. unfold load_ip_adapter.
    destruct (broadcast_args p sf w) as [[[P W] S]|e] eqn:Hargs.
    + assert (items p sf w = zip3 P W S) as Hitems.
      { unfold broadcast_args in Hargs. subst items. simpl.
        repeat match type of Hargs with
               | (if ?b then _ else _) = _ => destruct b; [done|]
               end.
        by inversion Hargs. }
      rewrite <- Hitems.
      destruct (resolve_low_cpu_mem_usage E low) as [low'|]; [|done].
      pose proof (load_loop_bad_keys E folder low' (items p sf w) (self, [])) as Hloop.
      destruct (load_loop E folder low' (self, []) (items p sf w)) as [[self' sds'] [u|e]].
      * exfalso. apply Hloop. apply Exists_exists. by exists item.
      * simpl in *. apply Hloop. apply Exists_exists. by exists item.
    + unfold broadcast_args in Hargs.
      repeat match type of Hargs with
             | (if ?b then _ else _) = _ => destruct b
             end; by inversion Hargs.
  - apply load_one_good_keys.
  - intros p sf w. unfold load_ip_adapter.
    destruct (broadcast_args p sf w) as [[[P W] S]|e] eqn:Hargs; [|done].
    assert (items p sf w = zip3 P W S) as Hitems.
    { unfold broadcast_args in Hargs. subst items. simpl.
      repeat match type of Hargs with
             | (if ?b then _ else _) = _ => destruct b; [done|]
             end.
      by inversion Hargs. }
    rewrite <- Hitems.
    destruct (resolve_low_cpu_mem_usage E low) as [low'|]; [|done].
    pose proof (load_loop_returns E folder low' (items p sf w) (self, [])) as Hloop.
    destruct (load_loop E folder low' (self, []) (items p sf w)) as [[self' sds'] [u|e]];
      simpl in *; [|done].
    intros _. destruct (Hloop I) as [-> Hall]. split; [done|].
    by exists self', low'.
Qed.

(** ** Loading an IP-Adapter: safetensors files *)

Lemma keys_update {V} (d : PyDict.t V) (k : string) (f : V → V) :
  PyDict.keys (PyDict.update d k f) = PyDict.keys d.
Proof.
  unfold PyDict.keys. induction d as [|[k' v'] d IH]; [done|].
  cbn [PyDict.update]. destruct (String.eqb k k'); [done|].
  by rewrite !fmap_cons, IH.
Qed.

Lemma safetensors_step_keys (E : Env) (model_file key : string) (sd : StateDict) :
  PyDict.keys (safetensors_step E model_file sd key) = PyDict.keys sd.
Proof.
  unfold safetensors_step.
  destruct (PyStr.startswith key "image_proj."); [apply keys_update|].
  destruct (PyStr.startswith key "ip_adapter."); [apply keys_update|done].
Qed.

Lemma safetensors_step_dropped (E : Env) (model_file key : string) (sd : StateDict) :
  has_adapter_prefix key = false → safetensors_step E model_file sd key = sd.
Proof.
  unfold has_adapter_prefix, safetensors_step.
  destruct (PyStr.startswith key "image_proj."); [done|].
  by destruct (PyStr.startswith key "ip_adapter.").
Qed.

Lemma foldl_safetensors_keys (E : Env) (model_file : string) (ks : list string)
    (sd : StateDict) :
  PyDict.keys (foldl (safetensors_step E model_file) sd ks) = PyDict.keys sd.
Proof.
  revert sd. induction ks as [|k ks IH]; intros sd; simpl; [done|].
  by rewrite IH, safetensors_step_keys.
Qed.

Lemma foldl_safetensors_filter (E : Env) (model_file : string) (ks : list string)
    (sd : StateDict) :
  foldl (safetensors_step E model_file) sd ks
  = foldl (safetensors_step E model_file) sd (List.filter has_adapter_prefix ks).
Proof.
  revert sd. induction ks as [|k ks IH]; intros sd; simpl; [done|].
  destruct (has_adapter_prefix k) eqn:Hk; simpl; [apply IH|].
  by rewrite safetensors_step_dropped.
Qed.

Lemma load_one_safetensors (E : Env) (folder : option string) (low : bool)
    (st : Pipeline * list StateDict) (item : source * string * string) :
  reads_safetensors item = true →
  has_required_keys E item ∧ (load_one E folder low st item).2 = Returns ().
Proof.
  destruct st as [self sds], item as [[[name|d] w] sf]; simpl; [|done].
  intros Hw.
  assert (has_required_keys E (SrcName name, w, sf)) as Hkeys.
  { unfold has_required_keys, read_item, read_state_dict. simpl. rewrite Hw.
    apply foldl_safetensors_keys. }
  split; [done|].
  unfold has_required_keys, read_item in Hkeys. simpl in Hkeys.
  unfold load_one. rewrite bool_decide_eq_true_2 by done. simpl.
  unfold load_image_encoder.
  destruct (hasattr self "image_encoder" && _); [|done].
  by destruct folder.
Qed.

Lemma load_loop_safetensors (E : Env) (folder : option string) (low : bool)
    (items : list (source * string * string)) (st : Pipeline * list StateDict) :
  Forall (λ item, reads_safetensors item = true) items →
  (load_loop E folder low st items).2 = Returns ().
Proof.
  intros Hall. revert st.
  induction Hall as [|item items Hitem _ IH]; intros st; cbn [load_loop]; [done|].
  destruct (load_one_safetensors E folder low st item Hitem) as [_ Hone].
  destruct (load_one E folder low st item) as [st' [[]|e]]; cbn [snd] in *.
  - apply IH.
  - done.
Qed.

(** C10. For a weight name that ends in [.safetensors] the state dict
    built from the file has exactly the top-level keys [image_proj] and
    [ip_adapter], in this order; keys of the file with neither prefix
    do not contribute; the required-keys [ValueError] is raised neither
    by the iteration nor by a call all of whose items are read from
    safetensors files. *)
Theorem load_ip_adapter_safetensors_keys (E : Env) (name weight_name subfolder : string) :
  PyStr.endswith weight_name ".safetensors" = true →
  let model_file := get_model_file E name weight_name subfolder in
  let state_dict := read_state_dict E (SrcName name) weight_name subfolder in
  PyDict.keys state_dict = ["image_proj"; "ip_adapter"]
  ∧ state_dict
    = foldl (safetensors_step E model_file) [("image_proj", []); ("ip_adapter", [])]
            (List.filter has_adapter_prefix (safe_open_keys E model_file))
  ∧ (∀ folder low st,
       (load_one E folder low st (SrcName name, weight_name, subfolder)).2
       ≠ Raises required_keys_error)
  ∧ (∀ self p sf w folder low,
       Forall (λ item, reads_safetensors item = true)
              (zip3 (broadcast (as_list p) (length (as_list w))) (as_list w)
                    (broadcast (as_list sf) (length (as_list w)))) →
       (load_ip_adapter E self p sf w folder low).2 ≠ Raises required_keys_error).
Proof.
  intros Hw model_file state_dict.
  assert (state_dict = load_safetensors E model_file) as Hsd.
  { subst state_dict model_file. unfold read_state_dict. by rewrite Hw. }
  split; [|split; [|split]].
  - rewrite Hsd. apply foldl_safetensors_keys.
  - rewrite Hsd. apply foldl_safetensors_filter.
  - intros folder low st.
    destruct (load_one_safetensors E folder low st (SrcName name, weight_name, subfolder))
      as [_ ->]; done.
  - intros self p sf w folder low Hall. unfold load_ip_adapter, broadcast_args.
    destruct (negb _); [done|]. destruct (negb _); [done|].
    unfold resolve_low_cpu_mem_usage.
    destruct (_ && negb (is_torch_version_ge_1_9_0 E)); [done|].
    match goal with
    | |- context [load_loop E folder ?l ?st ?items] =>
        pose proof (load_loop_safetensors E folder l items st Hall) as Hloop;
        destruct (load_loop E folder l st items) as [[self' sds'] r]
    end.
    simpl in Hloop. by rewrite Hloop.
Qed.

(** ** Fusing LoRA adapters *)

Lemma fuse_module_forward (m : nn_module) (x : Act) :
  forward (fuse_module m) x = linear (base_weight (fuse_module m)) x.
Proof.
  destruct m as [w|base adapters [|]]; reflexivity.
Qed.

Lemma fuse_lora_keeps_layers (modules : list nn_module) :
  check_if_lora_correctly_set (fuse_lora modules) = check_if_lora_correctly_set modules.
Proof.
  induction modules as [|m modules IH]; simpl; [done|].
  rewrite <- IH. by destruct m as [w|base adapters [|]].
Qed.

(** C2. After [fuse_lora] the base weight of every module is the old
    base weight with the delta weights of its separately computed
    adapters added in, no module computes an adapter on a path of its
    own any more (its output is the base computation alone), and the
    tuner layers themselves are still part of the model. *)
Theorem fuse_lora_merges_adapters (modules : list nn_module) :
  Forall2 (λ m m',
             base_weight m' = foldl weight_add (base_weight m) (separate_adapters m)
             ∧ separate_adapters m' = []
             ∧ (∀ x, forward m' x = linear (base_weight m') x)
             ∧ is_tuner_layer m' = is_tuner_layer m)
          modules (fuse_lora modules)
  ∧ check_if_lora_correctly_set (fuse_lora modules) = check_if_lora_correctly_set modules.
Proof.
  split; [|apply fuse_lora_keeps_layers].
  unfold fuse_lora. apply Forall2_fmap_r, Forall_Forall2_diag, Forall_forall.
  intros m _. split; [|split; [|split]].
  - by destruct m as [w|base adapters [|]].
  - by destruct m as [w|base adapters [|]].
  - apply fuse_module_forward.
  - by destruct m as [w|base adapters [|]].
Qed.

(** ** More on setting the IP-Adapter scale *)

(** Two processors of the same class; for the IP-Adapter classes, with
    scales of the same length. *)
Definition same_kind (p q : attn_processor) : Prop :=
  match p, q with
  | AttnProcessor, AttnProcessor => True
  | IPAdapterAttnProcessor s, IPAdapterAttnProcessor s' => length s = length s'
  | IPAdapterAttnProcessor2_0 s, IPAdapterAttnProcessor2_0 s' => length s = length s'
  | OtherAttnProcessor c, OtherAttnProcessor c' => c = c'
  | _, _ => False
  end.

(** What a scalar [scale] turns the processor's scale into. *)
Definition fill_scale (v : Scale) (p : attn_processor) : attn_processor :=
  match ip_adapter_scale p with
  | Some s => assign_scale p (replicate (length s) v)
  | None => p
  end.

Lemma same_kind_refl (p : attn_processor) : same_kind p p.
Proof. by destruct p. Qed.

Lemma same_kind_assign (p : attn_processor) (s new : list Scale) :
  ip_adapter_scale p = Some s → length s = length new →
  same_kind p (assign_scale p new).
Proof. destruct p; simpl; intros [= <-] Hlen; done. Qed.

Lemma same_kind_plain (p q : attn_processor) :
  ip_adapter_scale p = None → same_kind p q → q = p.
Proof. destruct p, q; simpl; try done. by intros _ ->. Qed.

Lemma set_scale_loop_same_kind (procs : PyDict.t attn_processor) (scale : scale_arg) :
  Forall2 (λ kp kq, kp.1 = kq.1 ∧ same_kind kp.2 kq.2)
          procs (set_scale_loop procs scale).1.
Proof.
  revert scale. induction procs as [|[name p] procs IH]; intros scale;
    cbn [set_scale_loop]; [by constructor|].
  destruct (ip_adapter_scale p) as [cur|] eqn:Hp.
  - match goal with |- context [negb (?a =? ?b)%nat] =>
      destruct (Nat.eqb_spec a b) as [Hlen|Hlen] end; cbn [negb].
    + match goal with |- context [set_scale_loop procs ?sc] =>
        specialize (IH sc); destruct (set_scale_loop procs sc) as [rest' r] end.
      constructor; [|done]. split; [done|]. by eapply same_kind_assign.
    + cbn [fst]. apply Forall_Forall2_diag, Forall_forall.
      intros [n q] _. split; [done|apply same_kind_refl].
  - specialize (IH scale). destruct (set_scale_loop procs scale) as [rest' r].
    constructor; [|done]. split; [done|apply same_kind_refl].
Qed.

(** X1. Whatever the scale and whatever the outcome,
    [set_ip_adapter_scale] keeps the names, the order and the classes
    of the attention processors and the number of adapters of every
    IP-Adapter processor, and touches nothing else of the pipeline. *)
Theorem set_ip_adapter_scale_frame (self : Pipeline) (scale : scale_arg) :
  let self' := (set_ip_adapter_scale self scale).1 in
  attrs self' = attrs self
  ∧ config self' = config self
  ∧ encoder_hid_proj (unet self') = encoder_hid_proj (unet self)
  ∧ ip_adapter_weights (unet self') = ip_adapter_weights (unet self)
  ∧ Forall2 (λ kp kq, kp.1 = kq.1 ∧ same_kind kp.2 kq.2)
            (attn_processors (unet self)) (attn_processors (unet self')).
Proof.
  intros self'. subst self'. unfold set_ip_adapter_scale.
  pose proof (set_scale_loop_same_kind (attn_processors (unet self)) scale) as Hloop.
  destruct (set_scale_loop (attn_processors (unet self)) scale) as [procs r].
  done.
Qed.

Lemma set_scale_loop_list_returns (procs : PyDict.t attn_processor) (new : list Scale) :
  returns (set_scale_loop procs (ScaleList new)).2
  ↔ Forall (λ kp, ∀ s, ip_adapter_scale kp.2 = Some s → length s = length new) procs.
Proof.
  induction procs as [|[name p] procs IH]; cbn [set_scale_loop]; [done|].
  destruct (ip_adapter_scale p) as [cur|] eqn:Hp.
  - destruct (Nat.eqb_spec (length cur) (length new)) as [Hlen|Hlen]; cbn [negb].
    + destruct (set_scale_loop procs (ScaleList new)) as [rest' r]. cbn [snd] in *.
      rewrite IH. split.
      * intros Hall. constructor; [|done]. simpl. rewrite Hp. by intros s [= <-].
      * by inversion 1.
    + cbn [snd]. split; [done|]. inversion 1 as [|? ? Hhead _]; subst.
      simpl in Hhead. destruct Hlen. by apply Hhead.
  - destruct (set_scale_loop procs (ScaleList new)) as [rest' r]. cbn [snd] in *.
    rewrite IH. split.
    + intros Hall. constructor; [|done]. simpl. by rewrite Hp.
    + by inversion 1.
Qed.

(** X2. With a list, [set_ip_adapter_scale] returns exactly when every
    IP-Adapter processor has as many adapters as the list has entries;
    every IP-Adapter processor then carries the list and the other
    processors are as before. *)
Theorem set_ip_adapter_scale_list (self : Pipeline) (new : list Scale) :
  let call := set_ip_adapter_scale self (ScaleList new) in
  (returns call.2
   ↔ Forall (λ kp, ∀ s, ip_adapter_scale kp.2 = Some s → length s = length new)
            (attn_processors (unet self)))
  ∧ (returns call.2 →
     attn_processors (unet call.1)
     = (λ kp, (kp.1, assign_scale kp.2 new)) <$> attn_processors (unet self)).
Proof.
  intros call. subst call. unfold set_ip_adapter_scale.
  pose proof (set_scale_loop_list_returns (attn_processors (unet self)) new) as Hiff.
  pose proof (set_scale_loop_assign (attn_processors (unet self)) [] new) as Hassign.
  rewrite app_nil_r in Hassign. cbn [set_scale_loop fst snd] in Hassign.
  destruct (set_scale_loop (attn_processors (unet self)) (ScaleList new)) as [procs r].
  cbn [fst snd] in *. split; [done|].
  intros Hret. apply Hiff in Hret. specialize (Hassign Hret).
  rewrite app_nil_r in Hassign. by inversion Hassign.
Qed.

Lemma fill_scale_assign (v : Scale) (n : nat) (p : attn_processor) :
  (∀ s, ip_adapter_scale p = Some s → length s = n) →
  assign_scale p (replicate n v) = fill_scale v p.
Proof.
  unfold fill_scale. destruct p as [|s|s|c]; simpl; intros Hn; try done;
    by rewrite (Hn s eq_refl).
Qed.

Lemma set_scale_loop_scalar (procs : PyDict.t attn_processor) (v : Scale) :
  (returns (set_scale_loop procs (ScaleValue v)).2
   ↔ ∃ n, Forall (λ kp, ∀ s, ip_adapter_scale kp.2 = Some s → length s = n) procs)
  ∧ (returns (set_scale_loop procs (ScaleValue v)).2 →
     (set_scale_loop procs (ScaleValue v)).1 = (λ kp, (kp.1, fill_scale v kp.2)) <$> procs).
Proof.
  induction procs as [|[name p] procs [IHiff IHres]]; cbn [set_scale_loop].
  { split; [|done]. split; [by exists 0|done]. }
  destruct (ip_adapter_scale p) as [cur|] eqn:Hp.
  - rewrite length_replicate, Nat.eqb_refl. cbn [negb].
    pose proof (set_scale_loop_list_returns procs (replicate (length cur) v)) as Hiff.
    pose proof (set_scale_loop_assign procs [] (replicate (length cur) v)) as Hassign.
    rewrite app_nil_r in Hassign. cbn [set_scale_loop fst snd] in Hassign.
    rewrite length_replicate in Hiff, Hassign.
    destruct (set_scale_loop procs (ScaleList (replicate (length cur) v))) as [rest' r].
    cbn [fst snd] in *. split.
    + rewrite Hiff. split.
      * intros Hall. exists (length cur). constructor; [|done].
        simpl. rewrite Hp. by intros s [= <-].
      * intros [n Hall]. inversion Hall as [|? ? Hhead Htail]; subst.
        simpl in Hhead. by rewrite (Hhead cur Hp).
    + intros Hret. apply Hiff in Hret. specialize (Hassign Hret).
      rewrite app_nil_r in Hassign. inversion Hassign; subst. rewrite fmap_cons.
      f_equal.
      * simpl. unfold fill_scale. by rewrite Hp.
      * apply list_fmap_ext. intros i [n q] Hq. simpl. f_equal.
        apply fill_scale_assign. rewrite Forall_forall in Hret.
        apply (Hret (n, q)). by eapply list_elem_of_lookup_2.
  - destruct (set_scale_loop procs (ScaleValue v)) as [rest' r]. cbn [fst snd] in *.
    split.
    + rewrite IHiff. split.
      * intros [n Hall]. exists n. constructor; [|done]. simpl. by rewrite Hp.
      * intros [n Hall]. exists n. by inversion Hall.
    + intros Hret. rewrite (IHres Hret), fmap_cons. simpl.
      unfold fill_scale at 2. by rewrite Hp.
Qed.

(** X3. With a non-list scale, [set_ip_adapter_scale] returns exactly
    when all IP-Adapter processors have the same number of adapters;
    every IP-Adapter processor then carries the value repeated once per
    adapter. *)
Theorem set_ip_adapter_scale_scalar (self : Pipeline) (v : Scale) :
  let call := set_ip_adapter_scale self (ScaleValue v) in
  (returns call.2
   ↔ ∃ n, Forall (λ kp, ∀ s, ip_adapter_scale kp.2 = Some s → length s = n)
                 (attn_processors (unet self)))
  ∧ (returns call.2 →
     attn_processors (unet call.1)
     = (λ kp, (kp.1, fill_scale v kp.2)) <$> attn_processors (unet self)).
Proof.
  intros call. subst call. unfold set_ip_adapter_scale.
  destruct (set_scale_loop_scalar (attn_processors (unet self)) v) as [Hiff Hres].
  destruct (set_scale_loop (attn_processors (unet self)) (ScaleValue v)) as [procs r].
  cbn [fst snd] in *. done.
Qed.

Lemma set_scale_loop_no_ip_adapter (procs : PyDict.t attn_processor) (scale : scale_arg) :
  Forall (λ kp, ip_adapter_scale kp.2 = None) procs →
  set_scale_loop procs scale = (procs, Returns ()).
Proof.
  intros Hnone. pose proof (set_scale_loop_skip procs [] scale Hnone) as Hskip.
  by rewrite !app_nil_r in Hskip.
Qed.

(** X4. On a UNet without IP-Adapter attention processors
    [set_ip_adapter_scale] returns without an error and leaves the
    pipeline as it is, whatever the scale (a list of any length
    included). *)
Theorem set_ip_adapter_scale_without_ip_adapter (self : Pipeline) (scale : scale_arg) :
  Forall (λ kp, ip_adapter_scale kp.2 = None) (attn_processors (unet self)) →
  set_ip_adapter_scale self scale = (self, Returns ()).
Proof.
  intros Hnone. unfold set_ip_adapter_scale.
  rewrite (set_scale_loop_no_ip_adapter _ _ Hnone).
  by destruct self as [a [h p w] c].
Qed.

(** X5. With a list, the first IP-Adapter processor whose number of
    adapters differs from the length of the list makes the call raise
    [ValueError]; the IP-Adapter processors before it have already been
    given the list, the processors from it on are untouched. *)
Theorem set_ip_adapter_scale_list_not_atomic (self : Pipeline)
    (pre rest : PyDict.t attn_processor) (name : string) (p : attn_processor)
    (s new : list Scale) :
  attn_processors (unet self) = pre ++ (name, p) :: rest →
  Forall (λ kp, ∀ s, ip_adapter_scale kp.2 = Some s → length s = length new) pre →
  ip_adapter_scale p = Some s →
  length s ≠ length new →
  set_ip_adapter_scale self (ScaleList new)
  = (set_unet self
       (mkUNet (encoder_hid_proj (unet self))
               (((λ kp, (kp.1, assign_scale kp.2 new)) <$> pre) ++ (name, p) :: rest)
               (ip_adapter_weights (unet self))),
     Raises (scale_length_error (length s) (length new))).
Proof.
  intros Hprocs Hpre Hp Hlen. unfold set_ip_adapter_scale. rewrite Hprocs.
  rewrite (set_scale_loop_assign _ _ _ Hpre). cbn [set_scale_loop]. rewrite Hp.
  by destruct (Nat.eqb_spec (length s) (length new)).
Qed.

Lemma assign_scale_twice (p : attn_processor) (new : list Scale) :
  assign_scale (assign_scale p new) new = assign_scale p new.
Proof. by destruct p. Qed.

Lemma assign_scale_length (p : attn_processor) (new s : list Scale) :
  ip_adapter_scale (assign_scale p new) = Some s → length s = length new.
Proof. destruct p; simpl; by intros [= <-]. Qed.

Lemma set_ip_adapter_scale_list_ok (self : Pipeline) (new : list Scale) :
  Forall (λ kp, ∀ s, ip_adapter_scale kp.2 = Some s → length s = length new)
         (attn_processors (unet self)) →
  set_ip_adapter_scale self (ScaleList new)
  = (set_unet self
       (mkUNet (encoder_hid_proj (unet self))
               ((λ kp, (kp.1, assign_scale kp.2 new)) <$> attn_processors (unet self))
               (ip_adapter_weights (unet self))),
     Returns ()).
Proof.
  intros Hall. unfold set_ip_adapter_scale.
  pose proof (set_scale_loop_assign (attn_processors (unet self)) [] new Hall) as Hassign.
  rewrite !app_nil_r in Hassign. cbn [set_scale_loop fst snd] in Hassign.
  by rewrite Hassign.
Qed.

(** X6. A call of [set_ip_adapter_scale] with a list that returns can
    be repeated: the second call returns too and changes nothing. *)
Theorem set_ip_adapter_scale_list_idempotent (self : Pipeline) (new : list Scale) :
  returns (set_ip_adapter_scale self (ScaleList new)).2 →
  set_ip_adapter_scale (set_ip_adapter_scale self (ScaleList new)).1 (ScaleList new)
  = ((set_ip_adapter_scale self (ScaleList new)).1, Returns ()).
Proof.
  intros Hret.
  assert (Forall (λ kp, ∀ s, ip_adapter_scale kp.2 = Some s → length s = length new)
                 (attn_processors (unet self))) as Hall.
  { apply set_scale_loop_list_returns. unfold set_ip_adapter_scale in Hret.
    by destruct (set_scale_loop (attn_processors (unet self)) (ScaleList new)). }
  rewrite (set_ip_adapter_scale_list_ok self new Hall). cbn [fst].
  rewrite set_ip_adapter_scale_list_ok.
  - unfold set_unet. cbn [unet attn_processors encoder_hid_proj ip_adapter_weights
                          attrs config].
    rewrite <- list_fmap_compose.
    do 3 f_equal. apply list_fmap_ext. intros i [n q] _. simpl.
    by rewrite assign_scale_twice.
  - cbn [set_unet unet attn_processors]. apply Forall_fmap, Forall_forall.
    intros [n q] _ s. simpl. apply assign_scale_length.
Qed.

(** X7. After [unload_ip_adapter], [set_ip_adapter_scale] is a no-op
    that returns without an error: no attention processor is an
    IP-Adapter processor any more. *)
Theorem set_ip_adapter_scale_after_unload (self : Pipeline) (scale : scale_arg) :
  set_ip_adapter_scale (unload_ip_adapter self) scale
  = (unload_ip_adapter self, Returns ()).
Proof.
  unfold set_ip_adapter_scale. rewrite set_scale_loop_no_ip_adapter.
  - by destruct (unload_ip_adapter self) as [a [h p w] c].
  - rewrite unload_ip_adapter_unet. simpl. apply Forall_fmap, Forall_forall. done.
Qed.

(** ** More on unloading an IP-Adapter *)

(** The attribute [name] exists and holds a module (not [None]). *)
Definition holds_module (self : Pipeline) (name : string) : bool :=
  hasattr self name && negb (is_none (getattr self name PyNone)).

Lemma holds_module_lookup (self : Pipeline) (name : string) :
  holds_module self name
  = match attrs self !! name with Some (PyModule _ _) => true | _ => false end.
Proof.
  unfold holds_module, getattr. rewrite hasattr_lookup.
  by destruct (attrs self !! name) as [[|]|].
Qed.

Lemma pipeline_eq (p q : Pipeline) :
  attrs p = attrs q → unet p = unet q → config p = config q → p = q.
Proof. destruct p, q; simpl; by intros -> -> ->. Qed.

Lemma unload_ip_adapter_attrs (self : Pipeline) (name : string) :
  attrs (unload_ip_adapter self) !! name
  = if decide (name = "image_encoder")
    then (λ _, PyNone) <$> attrs self !! name
    else if decide (name = "feature_extractor")
    then (if hasattr self "safety_checker"
          then attrs self !! name
          else (λ _, PyNone) <$> attrs self !! name)
    else attrs self !! name.
Proof.
  rewrite (hasattr_lookup self "safety_checker"). unfold unload_ip_adapter.
  destruct (attrs self !! "image_encoder") as [[|cls origin]|] eqn:Himg;
    destruct (attrs self !! "safety_checker") as [sc|] eqn:Hsc;
    destruct (attrs self !! "feature_extractor") as [[|cls' origin']|] eqn:Hfe;
    repeat case_decide; subst; eval_attrs; rewrite ?Himg, ?Hfe; done.
Qed.

Lemma unload_ip_adapter_config (self : Pipeline) (name : string) :
  config (unload_ip_adapter self) !! name
  = if decide (name = "encoder_hid_dim_type") then Some CfgNone
    else if decide (name = "image_encoder")
    then (if holds_module self "image_encoder"
          then Some (CfgPair None None) else config self !! name)
    else if decide (name = "feature_extractor")
    then (if negb (hasattr self "safety_checker") && holds_module self "feature_extractor"
          then Some (CfgPair None None) else config self !! name)
    else config self !! name.
Proof.
  rewrite !holds_module_lookup, (hasattr_lookup self "safety_checker").
  unfold unload_ip_adapter.
  destruct (attrs self !! "image_encoder") as [[|cls origin]|] eqn:Himg;
    destruct (attrs self !! "safety_checker") as [sc|] eqn:Hsc;
    destruct (attrs self !! "feature_extractor") as [[|cls' origin']|] eqn:Hfe;
    repeat case_decide; subst; eval_attrs; done.
Qed.

(** X8. [unload_ip_adapter] neither adds nor removes an attribute of
    the pipeline, and [image_encoder] and [feature_extractor] are the
    only attributes whose value it can change. *)
Theorem unload_ip_adapter_attribute_frame (self : Pipeline) (name : string) :
  hasattr (unload_ip_adapter self) name = hasattr self name
  ∧ (name ≠ "image_encoder" → name ≠ "feature_extractor" →
     attrs (unload_ip_adapter self) !! name = attrs self !! name).
Proof.
  rewrite !hasattr_lookup, unload_ip_adapter_attrs. split.
  - repeat case_decide; try done;
      destruct (hasattr self "safety_checker"); by destruct (attrs self !! name).
  - intros Himg Hfe. by rewrite !decide_False.
Qed.

(** X9. The configuration after [unload_ip_adapter]: the entry of
    [image_encoder] becomes the pair of [None]s exactly when the
    attribute held a module, the entry of [feature_extractor] exactly
    when it held a module and the pipeline has no [safety_checker]
    attribute, [encoder_hid_dim_type] becomes [None], and every other
    entry is as before. *)
Theorem unload_ip_adapter_config_entries (self : Pipeline) (name : string) :
  let self' := unload_ip_adapter self in
  config self' !! "image_encoder"
  = (if holds_module self "image_encoder"
     then Some (CfgPair None None) else config self !! "image_encoder")
  ∧ config self' !! "feature_extractor"
    = (if negb (hasattr self "safety_checker") && holds_module self "feature_extractor"
       then Some (CfgPair None None) else config self !! "feature_extractor")
  ∧ (name ≠ "encoder_hid_dim_type" → name ≠ "image_encoder" →
     name ≠ "feature_extractor" →
     config self' !! name = config self !! name).
Proof.
  intros self'. subst self'. rewrite !unload_ip_adapter_config.
  split; [done|]. split; [done|].
  intros H1 H2 H3. by rewrite !decide_False.
Qed.

(** X10. [unload_ip_adapter] is idempotent: unloading a second time
    changes nothing. *)
Theorem unload_ip_adapter_idempotent (self : Pipeline) :
  unload_ip_adapter (unload_ip_adapter self) = unload_ip_adapter self.
Proof.
  assert (∀ name, hasattr (unload_ip_adapter self) name = hasattr self name) as Hhas.
  { intros name. rewrite !hasattr_lookup, unload_ip_adapter_attrs.
    repeat case_decide; try done;
      destruct (hasattr self "safety_checker"); by destruct (attrs self !! name). }
  assert (∀ name, name = "image_encoder" ∨ name = "feature_extractor" →
                  holds_module (unload_ip_adapter self) name
                  = (if decide (name = "image_encoder") then false
                     else hasattr self "safety_checker" && holds_module self name))
    as Hmod.
  { intros name Hname. rewrite !holds_module_lookup, unload_ip_adapter_attrs.
    destruct Hname as [-> | ->]; simpl.
    - by destruct (attrs self !! "image_encoder").
    - destruct (hasattr self "safety_checker"); simpl;
        by destruct (attrs self !! "feature_extractor") as [[|]|]. }
  apply pipeline_eq.
  - apply map_eq. intros name. rewrite !unload_ip_adapter_attrs, Hhas.
    repeat case_decide; try done;
      destruct (hasattr self "safety_checker"); by destruct (attrs self !! name).
  - rewrite !unload_ip_adapter_unet. simpl. f_equal.
    rewrite <- list_fmap_compose. by apply list_fmap_ext.
  - apply map_eq. intros name. rewrite !unload_ip_adapter_config, Hhas.
    rewrite !Hmod by auto. simpl.
    repeat case_decide; try done.
    by destruct (hasattr self "safety_checker").
Qed.

(** ** More on loading an IP-Adapter *)

Definition is_NotImplementedError {A} (o : outcome A) : Prop :=
  match o with
  | Raises (NotImplementedError _) => True
  | _ => False
  end.

(** The attribute [name] exists and is [None]: the test that makes
    [load_ip_adapter] load the image encoder or create the feature
    extractor. *)
Definition is_unset (self : Pipeline) (name : string) : bool :=
  hasattr self name && is_none (getattr self name PyNone).

(** The items of the loop for the given arguments. *)
Definition loop_items (p : or_list source) (sf w : or_list string)
  : list (source * string * string) :=
  zip3 (broadcast (as_list p) (length (as_list w))) (as_list w)
       (broadcast (as_list sf) (length (as_list w))).

Lemma broadcast_args_returns (p : or_list source) (sf w : or_list string)
    (P : list source) (W S : list string) :
  broadcast_args p sf w = Returns (P, W, S) → zip3 P W S = loop_items p sf w.
Proof.
  unfold broadcast_args, loop_items. intros Hargs.
  repeat match type of Hargs with
         | (if ?b then _ else _) = _ => destruct b; [done|]
         end.
  by inversion Hargs.
Qed.

Lemma broadcast_args_raises (p : or_list source) (sf w : or_list string) (e : exn) :
  broadcast_args p sf w = Raises e → ∃ msg, e = ValueError msg.
Proof.
  unfold broadcast_args. intros Hargs.
  repeat match type of Hargs with
         | (if ?b then _ else _) = _ => destruct b
         end; inversion Hargs; by eexists.
Qed.

Lemma load_loop_outcome (E : Env) (folder : option string) (low : bool)
    (items : list (source * string * string)) (st : Pipeline * list StateDict) :
  (load_loop E folder low st items).2 = Returns ()
  ∨ is_ValueError (load_loop E folder low st items).2.
Proof.
  revert st. induction items as [|item items IH]; intros st; cbn [load_loop];
    [by left|].
  pose proof (load_one_outcome E folder low st item) as Hone.
  destruct (load_one E folder low st item) as [st' [[]|e]]; cbn [snd] in *.
  - apply IH.
  - destruct Hone as [Hone|Hone]; [done|by right].
Qed.

(** X11. [load_ip_adapter] raises [NotImplementedError] exactly when the
    list arguments pass the length checks, [low_cpu_mem_usage] is
    requested, [accelerate] is available and torch is older than 1.9.0;
    the pipeline is then untouched. Without [accelerate] the request is
    dropped instead and this error cannot occur. *)
Theorem load_ip_adapter_not_implemented (E : Env) (self : Pipeline)
    (p : or_list source) (sf w : or_list string) (folder : option string) (low : bool) :
  let call := load_ip_adapter E self p sf w folder low in
  (is_NotImplementedError call.2
   ↔ returns (broadcast_args p sf w)
     ∧ low = true ∧ is_accelerate_available E = true
     ∧ is_torch_version_ge_1_9_0 E = false)
  ∧ (is_NotImplementedError call.2 → call = (self, Raises low_cpu_mem_error)).
Proof.
  intros call. subst call. unfold load_ip_adapter.
  destruct (broadcast_args p sf w) as [[[P W] S]|e] eqn:Hargs.
  - unfold resolve_low_cpu_mem_usage.
    destruct low, (is_accelerate_available E), (is_torch_version_ge_1_9_0 E);
      cbn [andb negb];
      try (split; [split; [done|by intros (_ & ? & ? & ?)]|done]);
      match goal with
      | |- context [load_loop E folder ?l ?st ?items] =>
          pose proof (load_loop_outcome E folder l items st) as Hloop;
          destruct (load_loop E folder l st items) as [[self' sds'] [[]|[msg|msg]]]
      end; cbn [snd fst] in *;
      try (split; [split; [done|by intros (_ & ? & ? & ?)]|done]);
      by destruct Hloop.
  - destruct (broadcast_args_raises _ _ _ _ Hargs) as [msg ->]. cbn [snd].
    split; [|done]. split; [done|by intros [[] _]].
Qed.

Lemma load_one_unet (E : Env) (folder : option string) (low : bool)
    (st : Pipeline * list StateDict) (item : source * string * string) :
  (∀ s name module, unet (register_modules E s name module) = unet s) →
  unet (load_one E folder low st item).1.1 = unet st.1.
Proof.
  intros Hreg. destruct st as [self sds], item as [[src w] sf]. unfold load_one.
  destruct (negb _); [done|].
  unfold load_image_encoder.
  destruct (hasattr self "image_encoder" && _); [destruct folder, src|];
    cbn [fst snd]; try done;
    match goal with |- context [if ?b then _ else _] => destruct b end;
    cbn [fst]; by rewrite ?Hreg.
Qed.

Lemma load_loop_unet (E : Env) (folder : option string) (low : bool)
    (items : list (source * string * string)) (st : Pipeline * list StateDict) :
  (∀ s name module, unet (register_modules E s name module) = unet s) →
  unet (load_loop E folder low st items).1.1 = unet st.1.
Proof.
  intros Hreg. revert st. induction items as [|item items IH]; intros st;
    cbn [load_loop]; [done|].
  pose proof (load_one_unet E folder low st item Hreg) as Hone.
  destruct (load_one E folder low st item) as [st' [[]|e]]; cbn [fst snd] in *.
  - by rewrite IH.
  - done.
Qed.

(** X12. When registering a module does not touch the UNet, a call of
    [load_ip_adapter] that raises leaves the UNet exactly as it was (no
    adapter weights are loaded, also not those of the items before the
    failing one), and a call that returns has passed the state dicts of
    all items, in order, to the weight loader of that same UNet. *)
Theorem load_ip_adapter_unet_all_or_nothing (E : Env) (self : Pipeline)
    (p : or_list source) (sf w : or_list string) (folder : option string) (low : bool) :
  (∀ s name module, unet (register_modules E s name module) = unet s) →
  let call := load_ip_adapter E self p sf w folder low in
  match call.2 with
  | Raises _ => unet call.1 = unet self
  | Returns _ =>
      unet call.1
      = load_ip_adapter_weights E (unet self) (read_item E <$> loop_items p sf w)
                                (low && is_accelerate_available E)
  end.
Proof.
  intros Hreg call. subst call. unfold load_ip_adapter.
  destruct (broadcast_args p sf w) as [[[P W] S]|e] eqn:Hargs; [|done].
  rewrite (broadcast_args_returns _ _ _ _ _ _ Hargs).
  assert (∀ l, resolve_low_cpu_mem_usage E low = Returns l →
               l = low && is_accelerate_available E) as Hlow.
  { unfold resolve_low_cpu_mem_usage.
    destruct low, (is_accelerate_available E), (is_torch_version_ge_1_9_0 E);
      cbn [andb negb]; by intros l [= <-]. }
  destruct (resolve_low_cpu_mem_usage E low) as [low'|e]; [|done].
  rewrite <- (Hlow low' eq_refl).
  pose proof (load_loop_unet E folder low' (loop_items p sf w) (self, []) Hreg) as Hunet.
  pose proof (load_loop_returns E folder low' (loop_items p sf w) (self, [])) as Hret.
  destruct (load_loop E folder low' (self, []) (loop_items p sf w))
    as [[self' sds'] [[]|e]]; cbn [fst snd] in *; [|done].
  destruct (Hret I) as [-> _]. by rewrite Hunet.
Qed.

Lemma load_one_equipped (E : Env) (folder : option string) (low : bool)
    (self : Pipeline) (sds : list StateDict) (item : source * string * string) :
  is_unset self "image_encoder" = false →
  is_unset self "feature_extractor" = false →
  load_one E folder low (self, sds) item
  = if bool_decide (PyDict.keys (read_item E item) = required_keys)
    then ((self, sds ++ [read_item E item]), Returns ())
    else ((self, sds), Raises required_keys_error).
Proof.
  unfold is_unset. intros Himg Hfe. destruct item as [[src w] sf].
  unfold load_one, load_image_encoder, read_item. cbn [fst snd].
  rewrite Himg. destruct (bool_decide _); cbn [negb]; [|done]. by rewrite Hfe.
Qed.

Lemma load_loop_equipped (E : Env) (folder : option string) (low : bool)
    (items : list (source * string * string)) (self : Pipeline) (sds : list StateDict) :
  is_unset self "image_encoder" = false →
  is_unset self "feature_extractor" = false →
  (load_loop E folder low (self, sds) items).1.1 = self.
Proof.
  intros Himg Hfe. revert sds. induction items as [|item items IH]; intros sds;
    cbn [load_loop]; [done|].
  rewrite load_one_equipped by done.
  destruct (bool_decide _); [apply IH|done].
Qed.

(** X13. On a pipeline whose [image_encoder] and [feature_extractor]
    are either absent or already set, [load_ip_adapter] registers no
    module: when it raises the pipeline is unchanged, and when it
    returns only the UNet has changed. *)
Theorem load_ip_adapter_equipped_pipeline (E : Env) (self : Pipeline)
    (p : or_list source) (sf w : or_list string) (folder : option string) (low : bool) :
  is_unset self "image_encoder" = false →
  is_unset self "feature_extractor" = false →
  let call := load_ip_adapter E self p sf w folder low in
  attrs call.1 = attrs self
  ∧ config call.1 = config self
  ∧ match call.2 with
    | Raises _ => call.1 = self
    | Returns _ => True
    end.
Proof.
  intros Himg Hfe call. subst call. unfold load_ip_adapter.
  destruct (broadcast_args p sf w) as [[[P W] S]|e]; [|done].
  destruct (resolve_low_cpu_mem_usage E low) as [low'|e]; [|done].
  pose proof (load_loop_equipped E folder low' (zip3 P W S) self [] Himg Hfe) as Hloop.
  destruct (load_loop E folder low' (self, []) (zip3 P W S)) as [[self' sds'] [[]|e]];
    cbn [fst snd] in *; by subst.
Qed.

(** X14. A state dict passed directly cannot bring its image encoder:
    when the pipeline's [image_encoder] attribute exists and is [None]
    and an image encoder folder is given (the default), the call raises
    [ValueError] although the keys of the dict are the required ones,
    and the pipeline is unchanged. *)
Theorem load_ip_adapter_dict_without_image_encoder (E : Env) (self : Pipeline)
    (d : StateDict) (subfolder weight_name folder : string) (low : bool) :
  is_unset self "image_encoder" = true →
  PyDict.keys d = ["image_proj"; "ip_adapter"] →
  returns (resolve_low_cpu_mem_usage E low) →
  load_ip_adapter E self (One (SrcDict d)) (One subfolder) (One weight_name)
                  (Some folder) low
  = (self, Raises image_encoder_error).
Proof.
  unfold is_unset. intros Himg Hkeys Hlow. unfold load_ip_adapter.
  cbn [broadcast_args as_list length broadcast Nat.eqb list_mul replicate mjoin
       list_join app negb zip3].
  destruct (resolve_low_cpu_mem_usage E low) as [low'|e]; [|done].
  cbn [load_loop]. unfold load_one, load_image_encoder.
  cbn [read_state_dict]. rewrite bool_decide_eq_true_2 by done. cbn [negb].
  by rewrite Himg.
Qed.

(** X15. With an empty list of weight names and at most one source and
    one subfolder, nothing is read and nothing is checked: the call
    returns after handing the empty list of state dicts to the weight
    loader of the UNet. *)
Theorem load_ip_adapter_no_weight_names (E : Env) (self : Pipeline)
    (src : source) (subfolder : string) (folder : option string) (low : bool) :
  returns (resolve_low_cpu_mem_usage E low) →
  load_ip_adapter E self (One src) (One subfolder) (Many []) folder low
  = (set_unet self
       (load_ip_adapter_weights E (unet self) [] (low && is_accelerate_available E)),
     Returns ()).
Proof.
  unfold load_ip_adapter, resolve_low_cpu_mem_usage.
  cbn [broadcast_args as_list length broadcast Nat.eqb list_mul replicate mjoin
       list_join app negb zip3].
  by destruct low, (is_accelerate_available E), (is_torch_version_ge_1_9_0 E).
Qed.

(** ** More on reading a safetensors file *)

(** The inner dict that the keys of the file with a given prefix build,
    in the order of the file. *)
Definition collect (E : Env) (model_file prefix : string) (ks : list string)
  : PyDict.t Tensor :=
  foldl (λ d key, PyDict.set d (PyStr.replace key prefix "")
                             (safe_open_get_tensor E model_file key))
        [] (List.filter (λ key, PyStr.startswith key prefix) ks).

(** [old] occurs in [s] as a substring. *)
Definition occurs (old s : string) : Prop := ∃ a b, s = a +:+ old +:+ b.

Lemma prefixes_exclusive (key : string) :
  PyStr.startswith key "image_proj." = true → PyStr.startswith key "ip_adapter." = false.
Proof.
  unfold PyStr.startswith. destruct key as [|c1 [|c2 key]]; cbn [String.prefix];
    repeat match goal with
           | |- context [ascii_dec ?a ?b] => destruct (ascii_dec a b)
           end; try done; congruence.
Qed.

Lemma foldl_safetensors_split (E : Env) (model_file : string) (ks : list string)
    (a b : PyDict.t Tensor) :
  foldl (safetensors_step E model_file) [("image_proj", a); ("ip_adapter", b)] ks
  = [("image_proj",
      foldl (λ d key, PyDict.set d (PyStr.replace key "image_proj." "")
                                 (safe_open_get_tensor E model_file key))
            a (List.filter (λ key, PyStr.startswith key "image_proj.") ks));
     ("ip_adapter",
      foldl (λ d key, PyDict.set d (PyStr.replace key "ip_adapter." "")
                                 (safe_open_get_tensor E model_file key))
            b (List.filter (λ key, PyStr.startswith key "ip_adapter.") ks))].
Proof.
  revert a b. induction ks as [|k ks IH]; intros a b; [done|].
  cbn [foldl List.filter]. unfold safetensors_step at 2.
  destruct (PyStr.startswith k "image_proj.") eqn:Himg.
  - rewrite (prefixes_exclusive k Himg). cbn [PyDict.update String.eqb]. apply IH.
  - destruct (PyStr.startswith k "ip_adapter.") eqn:Hip; [|apply IH].
    replace (PyDict.update [("image_proj", a); ("ip_adapter", b)] "ip_adapter"
               (λ d, PyDict.set d (PyStr.replace k "ip_adapter." "")
                                  (safe_open_get_tensor E model_file k)))
      with [("image_proj", a);
            ("ip_adapter", PyDict.set b (PyStr.replace k "ip_adapter." "")
                                      (safe_open_get_tensor E model_file k))]
      by reflexivity.
    apply IH.
Qed.

(** X16. The state dict read from a safetensors file consists of two
    independent parts: the [image_proj] entry is built from the keys of
    the file that start with [image_proj.] alone and the [ip_adapter]
    entry from those that start with [ip_adapter.] alone, each in the
    order of the file. *)
Theorem load_safetensors_two_parts (E : Env) (model_file : string) :
  load_safetensors E model_file
  = [("image_proj", collect E model_file "image_proj." (safe_open_keys E model_file));
     ("ip_adapter", collect E model_file "ip_adapter." (safe_open_keys E model_file))].
Proof. apply foldl_safetensors_split. Qed.

Lemma get_set_eq {V} (d : PyDict.t V) (k : string) (v : V) :
  PyDict.get (PyDict.set d k v) k = Some v.
Proof.
  induction d as [|[k' v'] d IH]; cbn [PyDict.set PyDict.get].
  - by rewrite String.eqb_refl.
  - destruct (String.eqb k k') eqn:Hk; cbn [PyDict.get]; rewrite Hk; done.
Qed.

Lemma get_set_ne {V} (d : PyDict.t V) (k k' : string) (v : V) :
  k ≠ k' → PyDict.get (PyDict.set d k v) k' = PyDict.get d k'.
Proof.
  intros Hne. induction d as [|[k0 v0] d IH]; cbn [PyDict.set PyDict.get].
  - by rewrite (proj2 (String.eqb_neq k' k)).
  - destruct (String.eqb k k0) eqn:Hk; cbn [PyDict.get].
    + apply String.eqb_eq in Hk as <-. by rewrite (proj2 (String.eqb_neq k' k)).
    + by rewrite IH.
Qed.

Lemma get_foldl_set_last {V} (name : string → string) (value : string → V)
    (d : PyDict.t V) (ks1 ks2 : list string) (key : string) :
  Forall (λ k2, name k2 ≠ name key) ks2 →
  PyDict.get (foldl (λ d k, PyDict.set d (name k) (value k)) d (ks1 ++ key :: ks2))
             (name key)
  = Some (value key).
Proof.
  intros Hlater. rewrite foldl_app. cbn [foldl].
  generalize (foldl (λ d k, PyDict.set d (name k) (value k)) d ks1). intros d1.
  assert (PyDict.get (PyDict.set d1 (name key) (value key)) (name key) = Some (value key))
    as Hget by apply get_set_eq.
  revert Hget. generalize (PyDict.set d1 (name key) (value key)). clear d1.
  induction Hlater as [|k2 ks2 Hk2 _ IH]; intros d2 Hget; cbn [foldl]; [done|].
  apply IH. by rewrite get_set_ne.
Qed.

Lemma get_foldl_set_origin {V} (name : string → string) (value : string → V)
    (ks : list string) (d : PyDict.t V) (k : string) (v : V) :
  PyDict.get (foldl (λ d k, PyDict.set d (name k) (value k)) d ks) k = Some v →
  PyDict.get d k = Some v ∨ ∃ key, key ∈ ks ∧ name key = k ∧ value key = v.
Proof.
  revert d. induction ks as [|k0 ks IH]; intros d; cbn [foldl]; [by left|].
  intros Hget. destruct (IH _ Hget) as [Hd|(key & Hin & Hname & Hval)].
  - destruct (decide (name k0 = k)) as [<-|Hne].
    + rewrite get_set_eq in Hd. injection Hd as <-.
      right. exists k0. split; [constructor|done].
    + rewrite get_set_ne in Hd by done. by left.
  - right. exists key. split; [by constructor|done].
Qed.

Lemma filter_app_cons (f : string → bool) (ks1 ks2 : list string) (key : string) :
  f key = true →
  List.filter f (ks1 ++ key :: ks2) = List.filter f ks1 ++ key :: List.filter f ks2.
Proof. intros Hkey. rewrite List.filter_app. cbn [List.filter]. by rewrite Hkey. Qed.

(** X17. A tensor of a safetensors file is found again in the state
    dict: for a file key with one of the two prefixes, the entry of
    that prefix maps the key with the prefix text removed to the tensor
    of the key, provided no later key of the file with that prefix is
    stored under the same name. Conversely every binding of an entry
    comes from a key of the file with that prefix. *)
Theorem load_safetensors_lookup (E : Env) (model_file entry key : string)
    (ks1 ks2 : list string) :
  let prefix := entry +:+ "." in
  entry = "image_proj" ∨ entry = "ip_adapter" →
  safe_open_keys E model_file = ks1 ++ key :: ks2 →
  PyStr.startswith key prefix = true →
  Forall (λ k2, PyStr.startswith k2 prefix = true →
                PyStr.replace k2 prefix "" ≠ PyStr.replace key prefix "") ks2 →
  ∃ inner,
    PyDict.get (load_safetensors E model_file) entry = Some inner
    ∧ PyDict.get inner (PyStr.replace key prefix "")
      = Some (safe_open_get_tensor E model_file key)
    ∧ ∀ k t, PyDict.get inner k = Some t →
        ∃ key', key' ∈ safe_open_keys E model_file
                ∧ PyStr.startswith key' prefix = true
                ∧ PyStr.replace key' prefix "" = k
                ∧ safe_open_get_tensor E model_file key' = t.
Proof.
  intros prefix Hentry Hks Hkey Hlater.
  exists (collect E model_file prefix (safe_open_keys E model_file)).
  split; [|split].
  - unfold load_safetensors. rewrite foldl_safetensors_split. subst prefix.
    by destruct Hentry as [-> | ->].
  - unfold collect. rewrite Hks, filter_app_cons by done.
    apply (get_foldl_set_last (λ k, PyStr.replace k prefix "")
                              (safe_open_get_tensor E model_file)).
    apply Forall_forall. intros k2 Hk2. apply list_elem_of_In, List.filter_In in Hk2.
    destruct Hk2 as [Hin Hpre]. rewrite Forall_forall in Hlater.
    apply Hlater; [by apply list_elem_of_In|done].
  - intros k t Hget. unfold collect in Hget.
    apply (get_foldl_set_origin (λ k, PyStr.replace k prefix "")
                                (safe_open_get_tensor E model_file)) in Hget.
    destruct Hget as [Hnil|(key' & Hin & Hname & Hval)]; [done|].
    apply list_elem_of_In, List.filter_In in Hin. destruct Hin as [Hin Hpre].
    exists key'. split; [by apply list_elem_of_In|done].
Qed.

Lemma prefix_append (old s : string) : String.prefix old (old +:+ s) = true.
Proof.
  induction old as [|c old IH]; simpl.
  - by destruct s.
  - destruct (ascii_dec c c); [apply IH|done].
Qed.

Lemma prefix_split (old s : string) :
  String.prefix old s = true → ∃ b, s = old +:+ b.
Proof.
  revert s. induction old as [|c old IH]; intros s; [by exists s|].
  destruct s as [|c' s]; cbn [String.prefix]; [done|].
  destruct (ascii_dec c c') as [<-|]; [|done].
  intros Hpre. destruct (IH s Hpre) as [b ->]. by exists b.
Qed.

Lemma replace_from_skip (old new a s : string) :
  PyStr.replace_from old new (String.length a) (a +:+ s)
  = PyStr.replace_from old new 0 s.
Proof. induction a as [|c a IH]; [done|]. by cbn. Qed.

Lemma replace_from_absent (old new s : string) :
  ¬ occurs old s → PyStr.replace_from old new 0 s = s.
Proof.
  induction s as [|c s IH]; intros Habsent; [done|].
  cbn [PyStr.replace_from].
  destruct (String.prefix old (String c s)) eqn:Hpre.
  - destruct Habsent. destruct (prefix_split _ _ Hpre) as [b Hb].
    by exists "", b.
  - f_equal. apply IH. intros (a & b & ->). apply Habsent.
    by exists (String c a), b.
Qed.

(** X18. The name under which a tensor is stored: removing the prefix
    text from a key that starts with it removes every further
    occurrence in the rest of the key as well, so the name is the rest
    of the key exactly when the prefix text does not occur in it again. *)
Theorem replace_removes_prefix (old rest : string) :
  old ≠ "" →
  PyStr.replace (old +:+ rest) old "" = PyStr.replace rest old ""
  ∧ (¬ occurs old rest → PyStr.replace (old +:+ rest) old "" = rest).
Proof.
  intros Hold. destruct old as [|c old]; [done|].
  assert (PyStr.replace (String c old +:+ rest) (String c old) ""
          = PyStr.replace rest (String c old) "") as Hstrip.
  { unfold PyStr.replace. change (String c old +:+ rest) with (String c (old +:+ rest)).
    cbn [PyStr.replace_from].
    change (String c (old +:+ rest)) with (String c old +:+ rest).
    rewrite prefix_append. cbn [String.length Nat.sub String.append].
    by rewrite Nat.sub_0_r, replace_from_skip. }
  split; [done|]. intros Habsent. rewrite Hstrip. by apply replace_from_absent.
Qed.

(** ** More on the LoRA test helper *)

(** X19. [check_if_lora_correctly_set] holds exactly when at least one
    module of the model is a tuner layer: it does not tell whether
    every targeted layer carries an adapter. Over a model made of two
    parts it is the disjunction of the checks of the parts. *)
Theorem check_if_lora_correctly_set_exists (modules modules' : list nn_module) :
  (check_if_lora_correctly_set modules = true
   ↔ ∃ m, m ∈ modules ∧ is_tuner_layer m = true)
  ∧ check_if_lora_correctly_set (modules ++ modules')
    = check_if_lora_correctly_set modules || check_if_lora_correctly_set modules'.
Proof.
  split.
  - induction modules as [|m modules IH]; cbn [check_if_lora_correctly_set].
    + split; [done|]. intros (m & Hm & _). by apply elem_of_nil in Hm.
    + destruct (is_tuner_layer m) eqn:Hm.
      * split; [|done]. intros _. exists m. split; [constructor|done].
      * rewrite IH. split.
        -- intros (m' & Hin & Hm'). exists m'. split; [by constructor|done].
        -- intros (m' & Hin & Hm'). exists m'. split; [|done].
           apply elem_of_cons in Hin as [->|Hin]; [congruence|done].
  - induction modules as [|m modules IH]; [done|].
    cbn [app check_if_lora_correctly_set]. by destruct (is_tuner_layer m).
Qed.

End Loaders.

(** * Concrete instances

    Tensors and scales are natural numbers here; the environment reads
    the same four keys from every safetensors file and a state dict
    with its two entries in the wrong order from every other file. *)

Definition example_register_modules (self : @Pipeline nat nat) (name : string)
    (module : pyobj) : @Pipeline nat nat :=
  register_to_config (setattr self name module) name
                     (CfgPair (Some "transformers") (Some name)).

Definition example_env : @Env nat nat :=
  mkEnv true true
        (λ name weight_name subfolder, name +:+ "/" +:+ subfolder +:+ "/" +:+ weight_name)
        (λ _, ["image_proj.proj.weight"; "ip_adapter.1.to_k_ip.weight";
               "optimizer.step"; "ip_adapter.1.to_v_ip.weight"])
        (λ _ key, String.length key)
        (λ _, [("ip_adapter", [("1.to_k_ip.weight", 7)]); ("image_proj", [])])
        (String.concat "/")
        (λ name subfolder _, PyModule "CLIPVisionModelWithProjection" (name +:+ "/" +:+ subfolder))
        (PyModule "CLIPImageProcessor" "")
        example_register_modules
        (λ u state_dicts _,
           mkUNet (PyModule "ImageProjection" "") (attn_processors u)
                  (ip_adapter_weights u ++ state_dicts)).

Definition example_unet : @UNet nat nat :=
  mkUNet (PyModule "ImageProjection" "")
         [("down.attn1", AttnProcessor);
          ("down.attn2", IPAdapterAttnProcessor [1; 1]);
          ("mid.attn1", OtherAttnProcessor "XFormersAttnProcessor");
          ("mid.attn2", IPAdapterAttnProcessor2_0 [1]);
          ("up.attn2", IPAdapterAttnProcessor [1; 1])]
         [].

(** A pipeline whose [safety_checker] attribute exists and is [None]. *)
Definition example_pipeline : @Pipeline nat nat :=
  mkPipeline
    (<["image_encoder" := PyModule "CLIPVisionModelWithProjection" "h94/IP-Adapter"]>
       (<["feature_extractor" := PyModule "CLIPImageProcessor" ""]>
          (<["safety_checker" := PyNone]> ∅)))
    example_unet
    (<["encoder_hid_dim_type" := CfgStr "ip_image_proj"]> ∅).

(** The same pipeline without a [safety_checker] attribute. *)
Definition example_pipeline_unchecked : @Pipeline nat nat :=
  mkPipeline (delete "safety_checker" (attrs example_pipeline))
             example_unet (config example_pipeline).

(** A state dict with the two required keys in the wrong order. *)
Definition example_swapped_dict : @StateDict nat :=
  [("ip_adapter", [("1.to_k_ip.weight", 7)]); ("image_proj", [])].

Example replace_every_occurrence :
  PyStr.replace "image_proj.image_proj.x" "image_proj." "" = "x"
  ∧ PyStr.replace "aaa" "aa" "b" = "ba"
  ∧ PyStr.replace "abc" "" "-" = "-a-b-c-".
Proof. done. Qed.

Example endswith_safetensors :
  PyStr.endswith "ip-adapter_sd15.safetensors" ".safetensors" = true
  ∧ PyStr.endswith "ip-adapter_sd15.bin" ".safetensors" = false
  ∧ PyStr.endswith "s" ".safetensors" = false.
Proof. done. Qed.

Example list_mul_repeats : list_mul [1; 2] 3 = [1; 2; 1; 2; 1; 2] ∧ list_mul [1] 0 = [].
Proof. done. Qed.

Example unload_keeps_feature_extractor :
  attrs (unload_ip_adapter example_pipeline) !! "feature_extractor"
  = Some (PyModule "CLIPImageProcessor" "")
  ∧ attrs (unload_ip_adapter example_pipeline) !! "image_encoder" = Some PyNone
  ∧ attrs (unload_ip_adapter example_pipeline_unchecked) !! "feature_extractor"
    = Some PyNone
  ∧ config (unload_ip_adapter example_pipeline_unchecked) !! "feature_extractor"
    = Some (CfgPair None None).
Proof. vm_compute. done. Qed.

Example unload_resets_processors :
  attn_processors (unet (unload_ip_adapter example_pipeline))
  = [("down.attn1", AttnProcessor); ("down.attn2", AttnProcessor);
     ("mid.attn1", AttnProcessor); ("mid.attn2", AttnProcessor);
     ("up.attn2", AttnProcessor)].
Proof. reflexivity. Qed.

Example safetensors_state_dict :
  read_state_dict example_env (SrcName "h94/IP-Adapter") "ip-adapter_sd15.safetensors" "models"
  = [("image_proj", [("proj.weight", 22)]);
     ("ip_adapter", [("1.to_k_ip.weight", 27); ("1.to_v_ip.weight", 27)])].
Proof. reflexivity. Qed.

Example fuse_lora_on_numbers :
  fuse_lora Nat.add [PlainLayer 3; TunerLayer 10 [1; 2] false; TunerLayer 5 [4] true]
  = [PlainLayer 3; TunerLayer 13 [1; 2] true; TunerLayer 5 [4] true]
  ∧ forward Nat.mul Nat.add (TunerLayer 10 [1; 2] false) 2 = 26
  ∧ forward Nat.mul Nat.add (TunerLayer 13 [1; 2] true) 2 = 26.
Proof. done. Qed.

(** The scale [5] reaches the first IP-Adapter processor, which has two
    adapters, and becomes [[5; 5]]; the processor [mid.attn2] has one
    adapter, so the call raises, and [down.attn2] keeps [[5; 5]]. *)
Lemma set_ip_adapter_scale_not_atomic_witness :
  (set_ip_adapter_scale example_pipeline (ScaleValue 5)).2
  = Raises (ValueError
      "`scale` should be a list of same length as the number if ip-adapters Expected 1 but got 2.")
  ∧ attn_processors (unet (set_ip_adapter_scale example_pipeline (ScaleValue 5)).1)
    = [("down.attn1", AttnProcessor);
       ("down.attn2", IPAdapterAttnProcessor [5; 5]);
       ("mid.attn1", OtherAttnProcessor "XFormersAttnProcessor");
       ("mid.attn2", IPAdapterAttnProcessor2_0 [1]);
       ("up.attn2", IPAdapterAttnProcessor [1; 1])].
Proof.
  rewrite (set_ip_adapter_scale_not_atomic example_pipeline
             [("down.attn1", AttnProcessor)]
             [("mid.attn1", OtherAttnProcessor "XFormersAttnProcessor")]
             [("up.attn2", IPAdapterAttnProcessor [1; 1])]
             "down.attn2" "mid.attn2"
             (IPAdapterAttnProcessor [1; 1]) (IPAdapterAttnProcessor2_0 [1])
             [1; 1] [1] 5).
  - split; reflexivity.
  - reflexivity.
  - repeat constructor.
  - reflexivity.
  - repeat constructor. simpl. intros s Hs. discriminate Hs.
  - reflexivity.
  - simpl. lia.
Defined.

Lemma load_ip_adapter_broadcasting_witness :
  broadcast [SrcName "h94/IP-Adapter"] 2
  = [SrcName (Tensor := nat) "h94/IP-Adapter"; SrcName "h94/IP-Adapter"]
  ∧ is_ValueError
      (load_ip_adapter example_env example_pipeline
         (One (SrcName "h94/IP-Adapter")) (Many ["models"; "sdxl_models"; "models"])
         (Many ["ip-adapter_sd15.safetensors"; "ip-adapter_sdxl.safetensors"])
         (Some "image_encoder") false).2.
Proof.
  pose proof (load_ip_adapter_broadcasting example_env example_pipeline
                (One (SrcName "h94/IP-Adapter")) (Many ["models"; "sdxl_models"; "models"])
                (Many ["ip-adapter_sd15.safetensors"; "ip-adapter_sdxl.safetensors"])
                (Some "image_encoder") false) as (_ & Hrep & _ & _ & _ & Hmismatch & _).
  split.
  - exact (Hrep (SrcName "h94/IP-Adapter") eq_refl).
  - apply Hmismatch. right. simpl. lia.
Defined.

Lemma load_ip_adapter_required_keys_witness :
  load_one example_env (Some "image_encoder") false (example_pipeline, [])
           (SrcDict example_swapped_dict, "ip-adapter.bin", "models")
  = ((example_pipeline, []), Raises required_keys_error)
  ∧ is_ValueError
      (load_ip_adapter example_env example_pipeline
         (One (SrcDict example_swapped_dict)) (One "models") (One "ip-adapter.bin")
         (Some "image_encoder") false).2.
Proof.
  pose proof (load_ip_adapter_required_keys example_env (Some "image_encoder") false
                example_pipeline []
                (SrcDict example_swapped_dict, "ip-adapter.bin", "models")) as [Hbad _].
  assert (PyDict.keys
            (read_item example_env (SrcDict example_swapped_dict, "ip-adapter.bin", "models"))
          ≠ ["image_proj"; "ip_adapter"]) as Hkeys by (simpl; discriminate).
  destruct (Hbad Hkeys) as [Hone Hcall]. split.
  - exact Hone.
  - apply Hcall.
    + simpl. constructor.
    + exact I.
Defined.

Lemma load_ip_adapter_safetensors_keys_witness :
  PyDict.keys (read_state_dict example_env (SrcName "h94/IP-Adapter")
                               "ip-adapter_sd15.safetensors" "models")
  = ["image_proj"; "ip_adapter"]
  ∧ returns
      (load_ip_adapter example_env example_pipeline
         (One (SrcName "h94/IP-Adapter")) (One "models")
         (One "ip-adapter_sd15.safetensors") (Some "image_encoder") false).2.
Proof.
  split.
  - exact (proj1 (load_ip_adapter_safetensors_keys example_env "h94/IP-Adapter"
                    "ip-adapter_sd15.safetensors" "models" eq_refl)).
  - vm_compute. exact I.
Defined.

(** * Helpers of the LoRA tests *)

(** ** [state_dicts_almost_equal] *)

(** The order of [sorted] on the items of a dict: items are pairs of a
    key and a tensor, and as the keys of a dict are distinct the
    comparison of two items is decided by their keys. *)
Definition item_le {V} (a b : string * V) : Prop := String.leb a.1 b.1 = true.

#[local] Instance item_le_dec {V} (a b : string * V) : Decision (item_le a b).
Proof. unfold item_le. apply _. Defined.

(** [dict(sorted(sd.items()))] *)
Definition sorted_items {V} (sd : PyDict.t V) : PyDict.t V := merge_sort item_le sd.

Section StateDicts.

(** Tensors are opaque; [differs ten1 ten2] stands for the test
    [(ten1 - ten2).abs().max() > 1e-3] of the framework. *)
Context {Tensor : Type} (differs : Tensor → Tensor → bool).

Definition state_dicts_almost_equal (sd1 sd2 : PyDict.t Tensor) : bool :=
  let sd1 := sorted_items sd1 in
  let sd2 := sorted_items sd2 in
  foldl (λ models_are_equal tens,
           if differs tens.1 tens.2 then false else models_are_equal)
        true (zip sd1.*2 sd2.*2).

Lemma leb_le (a b : string) :
  String.leb a b = true ↔ a = b ∨ OrderedTypeEx.String_as_OT.lt a b.
Proof.
  unfold String.leb. split.
  - destruct (String.compare a b) eqn:Hcmp; [left|right|done].
    + by apply OrderedTypeEx.String_as_OT.cmp_eq.
    + by apply OrderedTypeEx.String_as_OT.cmp_lt.
  - intros [->|Hlt].
    + pose proof (proj2 (OrderedTypeEx.String_as_OT.cmp_eq b b) eq_refl) as Hcmp.
      unfold OrderedTypeEx.String_as_OT.cmp in Hcmp. by rewrite Hcmp.
    + apply OrderedTypeEx.String_as_OT.cmp_lt in Hlt.
      unfold OrderedTypeEx.String_as_OT.cmp in Hlt. by rewrite Hlt.
Qed.

#[local] Instance item_le_trans {V} : Transitive (@item_le V).
Proof.
  intros a b c. unfold item_le. rewrite !leb_le.
  intros [Hab|Hab] [Hbc|Hbc].
  - left. congruence.
  - right. by rewrite Hab.
  - right. by rewrite <- Hbc.
  - right. by eapply OrderedTypeEx.String_as_OT.lt_trans.
Qed.

#[local] Instance item_le_total {V} : Total (@item_le V).
Proof. intros a b. apply String.leb_total. Qed.

Lemma sorted_items_perm {V} (sd sd' : PyDict.t V) :
  NoDup sd.*1 → sd ≡ₚ sd' → sorted_items sd = sorted_items sd'.
Proof.
  intros Hnodup Hperm. unfold sorted_items.
  apply (Sorted_unique_strong item_le).
  - intros [k1 v1] [k2 v2] Hin1 Hin2 H12 H21. unfold item_le in *. simpl in *.
    assert (k1 = k2) as <- by by apply String.leb_antisym.
    rewrite merge_sort_Permutation in Hin1, Hin2. rewrite <- Hperm in Hin2.
    f_equal. clear -Hnodup Hin1 Hin2.
    induction sd as [|[k v] sd IH]; [by apply elem_of_nil in Hin1|].
    rewrite fmap_cons in Hnodup. apply NoDup_cons in Hnodup as [Hk Hnodup].
    apply elem_of_cons in Hin1 as [Heq1|Hin1], Hin2 as [Heq2|Hin2].
    + congruence.
    + destruct Hk. inversion Heq1; subst. apply list_elem_of_fmap.
      by exists (k, v2).
    + destruct Hk. inversion Heq2; subst. apply list_elem_of_fmap.
      by exists (k, v1).
    + by apply IH.
  - apply Sorted_merge_sort, _.
  - apply Sorted_merge_sort, _.
  - by rewrite !merge_sort_Permutation.
Qed.

Lemma foldl_flag_true (pairs : list (Tensor * Tensor)) (flag : bool) :
  foldl (λ models_are_equal tens,
           if differs tens.1 tens.2 then false else models_are_equal) flag pairs
  = flag && forallb (λ tens, negb (differs tens.1 tens.2)) pairs.
Proof.
  revert flag. induction pairs as [|[t1 t2] pairs IH]; intros flag; cbn [foldl forallb].
  - by rewrite andb_true_r.
  - rewrite IH. simpl. destruct (differs t1 t2), flag; done.
Qed.

(** X20. [state_dicts_almost_equal] compares tensors by position in the
    key order and never compares a key: it holds exactly when no pair
    of tensors at the same position differs, positions beyond the
    shorter dict are ignored, and so an empty dict is almost equal to
    every dict. *)
Theorem state_dicts_almost_equal_positions (sd1 sd2 : PyDict.t Tensor) :
  (state_dicts_almost_equal sd1 sd2 = true
   ↔ ∀ i ten1 ten2,
       (sorted_items sd1).*2 !! i = Some ten1 →
       (sorted_items sd2).*2 !! i = Some ten2 →
       differs ten1 ten2 = false)
  ∧ state_dicts_almost_equal [] sd2 = true
  ∧ state_dicts_almost_equal sd1 [] = true.
Proof.
  unfold state_dicts_almost_equal. rewrite !foldl_flag_true. cbn [andb].
  split; [|split].
  - rewrite forallb_forall. split.
    + intros Hall i ten1 ten2 H1 H2.
      specialize (Hall (ten1, ten2)). simpl in Hall.
      apply negb_true_iff, Hall, list_elem_of_In, list_elem_of_lookup.
      exists i. apply lookup_zip_with_Some. by exists ten1, ten2.
    + intros Hall [ten1 ten2] Hin. simpl.
      apply list_elem_of_In, list_elem_of_lookup in Hin as [i Hi].
      apply lookup_zip_with_Some in Hi as (t1 & t2 & [= <- <-] & H1 & H2).
      apply negb_true_iff. by eapply Hall.
  - done.
  - unfold sorted_items at 2. cbn. by rewrite zip_with_nil_r.
Qed.

(** X21. The result of [state_dicts_almost_equal] does not depend on the
    insertion order of its arguments: dicts with the same items in
    another order give the same answer. *)
Theorem state_dicts_almost_equal_insertion_order (sd1 sd1' sd2 sd2' : PyDict.t Tensor) :
  NoDup sd1.*1 → NoDup sd2.*1 → sd1 ≡ₚ sd1' → sd2 ≡ₚ sd2' →
  state_dicts_almost_equal sd1 sd2 = state_dicts_almost_equal sd1' sd2'.
Proof.
  intros Hnd1 Hnd2 Hp1 Hp2. unfold state_dicts_almost_equal.
  by rewrite (sorted_items_perm sd1 sd1'), (sorted_items_perm sd2 sd2').
Qed.

(** X22. When the distance test of the tensors is symmetric the
    comparison of two state dicts is symmetric, and when no tensor
    differs from itself every state dict is almost equal to itself. *)
Theorem state_dicts_almost_equal_symmetric (sd1 sd2 : PyDict.t Tensor) :
  (∀ a b, differs a b = differs b a) →
  (∀ a, differs a a = false) →
  state_dicts_almost_equal sd1 sd2 = state_dicts_almost_equal sd2 sd1
  ∧ state_dicts_almost_equal sd1 sd1 = true.
Proof.
  intros Hsym Hrefl. unfold state_dicts_almost_equal. rewrite !foldl_flag_true.
  cbn [andb]. split.
  - generalize ((sorted_items sd1).*2) ((sorted_items sd2).*2). intros l1.
    induction l1 as [|a l1 IH]; intros [|b l2]; try done.
    cbn. by rewrite IH, Hsym.
  - generalize ((sorted_items sd1).*2). intros l.
    induction l as [|a l IH]; [done|]. cbn. by rewrite Hrefl, IH.
Qed.

End StateDicts.

(** ** [remap_key] *)

(** [key in sd] *)
Definition py_in {V} (key : string) (sd : PyDict.t V) : bool :=
  bool_decide (key ∈ PyDict.keys sd).

(** [key[:-n]] for a positive [n] *)
Definition drop_last (n : nat) (key : string) : string :=
  String.substring 0 (String.length key - n) key.

(** The local function [remap_key] of [test_sdxl_1_0_fuse_unfuse_all];
    [peft_ge_070] is the variable it closes over. *)
Definition remap_key {V} (peft_ge_070 : bool) (key : string) (sd : PyDict.t V) : string :=
  if py_in key sd || negb peft_ge_070 then key
  else if PyStr.endswith key ".weight" then drop_last 7 key +:+ ".base_layer.weight"
  else if PyStr.endswith key ".bias" then drop_last 5 key +:+ ".base_layer.bias"
  else key.

Lemma string_length_append (a b : string) :
  String.length (a +:+ b) = String.length a + String.length b.
Proof. induction a as [|c a IH]; [done|]. simpl. by rewrite IH. Qed.

Lemma substring_full (s : string) : String.substring 0 (String.length s) s = s.
Proof. induction s as [|c s IH]; [done|]. simpl. by rewrite IH. Qed.

Lemma substring_append_l (a p : string) :
  String.substring 0 (String.length a) (a +:+ p) = a.
Proof.
  induction a as [|c a IH]; simpl; [by destruct p|]. by rewrite IH.
Qed.

Lemma substring_append_r (a p : string) :
  String.substring (String.length a) (String.length p) (a +:+ p) = p.
Proof. induction a as [|c a IH]; simpl; [apply substring_full|done]. Qed.

Lemma substring_split (s : string) (m : nat) :
  (m ≤ String.length s)%nat →
  s = String.substring 0 m s +:+ String.substring m (String.length s - m) s.
Proof.
  revert m. induction s as [|c s IH]; intros [|m] Hm; simpl in *;
    try done; try lia.
  - by rewrite substring_full.
  - apply (f_equal (String c)), IH. lia.
Qed.

Lemma endswith_iff (s p : string) :
  PyStr.endswith s p = true ↔ ∃ a, s = a +:+ p.
Proof.
  unfold PyStr.endswith. split.
  - destruct (Nat.leb_spec (String.length p) (String.length s)) as [Hle|]; [|done].
    intros Heq%String.eqb_eq.
    exists (String.substring 0 (String.length s - String.length p) s).
    pose proof (substring_split s (String.length s - String.length p)) as Hsplit.
    replace (String.length s - (String.length s - String.length p))
      with (String.length p) in Hsplit by lia.
    rewrite Heq in Hsplit. apply Hsplit. lia.
  - intros [a ->]. rewrite string_length_append.
    destruct (Nat.leb_spec (String.length p) (String.length a + String.length p));
      [|lia].
    replace (String.length a + String.length p - String.length p)
      with (String.length a) by lia.
    rewrite substring_append_r. apply String.eqb_refl.
Qed.

Lemma append_inj_suffix (a b p q : string) :
  a +:+ p = b +:+ q → String.length p = String.length q → a = b ∧ p = q.
Proof.
  revert b. induction a as [|c a IH]; intros [|c' b] Heq Hlen.
  - done.
  - change (p = String c' (b +:+ q)) in Heq. subst p.
    cbn [String.length] in Hlen. rewrite string_length_append in Hlen. lia.
  - change (String c (a +:+ p) = q) in Heq. subst q.
    cbn [String.length] in Hlen. rewrite string_length_append in Hlen. lia.
  - change (String c (a +:+ p) = String c' (b +:+ q)) in Heq.
    injection Heq as -> Heq. destruct (IH b Heq Hlen) as [-> ->]. done.
Qed.

Lemma append_assoc (a b c : string) : (a +:+ b) +:+ c = a +:+ (b +:+ c).
Proof. induction a as [|x a IH]; [done|]. exact (f_equal (String x) IH). Qed.

Lemma bias_not_weight (stem : string) :
  PyStr.endswith (stem +:+ ".bias") ".weight" = false.
Proof.
  apply not_true_is_false. intros [a Ha]%endswith_iff.
  change ".weight" with (".w" +:+ "eight") in Ha.
  rewrite <- append_assoc in Ha.
  by destruct (append_inj_suffix _ _ _ _ Ha eq_refl) as [_ ?].
Qed.

(** X23. For PEFT from 0.7.0 on, [remap_key] moves a key that is not in
    the state dict under [base_layer]: [stem.weight] becomes
    [stem.base_layer.weight] and [stem.bias] becomes
    [stem.base_layer.bias], for every stem; keys that are in the state
    dict, keys with neither suffix, and all keys for older PEFT are
    returned as they are. *)
Theorem remap_key_base_layer {V} (stem key : string) (sd : PyDict.t V) :
  (py_in (stem +:+ ".weight") sd = false →
   remap_key true (stem +:+ ".weight") sd = stem +:+ ".base_layer.weight")
  ∧ (py_in (stem +:+ ".bias") sd = false →
     remap_key true (stem +:+ ".bias") sd = stem +:+ ".base_layer.bias")
  ∧ (py_in key sd = true → remap_key true key sd = key)
  ∧ (PyStr.endswith key ".weight" = false → PyStr.endswith key ".bias" = false →
     remap_key true key sd = key)
  ∧ remap_key false key sd = key.
Proof.
  unfold remap_key, drop_last. repeat split.
  - intros ->. cbn [orb negb].
    rewrite (proj2 (endswith_iff (stem +:+ ".weight") ".weight")) by by exists stem.
    rewrite string_length_append. cbn [String.length].
    replace (String.length stem + 7 - 7) with (String.length stem) by lia.
    by rewrite substring_append_l.
  - intros ->. cbn [orb negb]. rewrite bias_not_weight.
    rewrite (proj2 (endswith_iff (stem +:+ ".bias") ".bias")) by by exists stem.
    rewrite string_length_append. cbn [String.length].
    replace (String.length stem + 5 - 5) with (String.length stem) by lia.
    by rewrite substring_append_l.
  - by intros ->.
  - intros -> ->. by destruct (py_in key sd).
  - by rewrite orb_true_r.
Qed.

(** * Further concrete instances *)

(** A pipeline without IP-Adapter attention processors. *)
Definition example_plain_pipeline : @Pipeline nat nat :=
  mkPipeline (attrs example_pipeline)
             (mkUNet PyNone
                     [("down.attn1", AttnProcessor);
                      ("mid.attn1", OtherAttnProcessor "XFormersAttnProcessor")]
                     [])
             (config example_pipeline).

(** A pipeline all of whose IP-Adapter processors have two adapters. *)
Definition example_pipeline_two_adapters : @Pipeline nat nat :=
  mkPipeline (attrs example_pipeline)
             (mkUNet (PyModule "ImageProjection" "")
                     [("down.attn1", AttnProcessor);
                      ("down.attn2", IPAdapterAttnProcessor [1; 1]);
                      ("mid.attn2", IPAdapterAttnProcessor2_0 [1; 1])]
                     [])
             (config example_pipeline).

(** A pipeline whose [image_encoder] and [feature_extractor] exist and
    are still [None]. *)
Definition example_pipeline_fresh : @Pipeline nat nat :=
  mkPipeline (<["image_encoder" := PyNone]> (<["feature_extractor" := PyNone]> ∅))
             example_unet ∅.

Definition example_state_dict : @StateDict nat :=
  [("image_proj", [("proj.weight", 3)]); ("ip_adapter", [("1.to_k_ip.weight", 7)])].

(** An exact comparison of numbers in the place of the distance test. *)
Definition example_differs (a b : nat) : bool := negb (a =? b)%nat.

Example state_dicts_almost_equal_ignores_keys :
  state_dicts_almost_equal example_differs [("b", 1); ("a", 2)] [("x", 2); ("y", 1)] = true
  ∧ state_dicts_almost_equal example_differs [("a", 1); ("b", 2)] [("a", 1); ("b", 3)] = false
  ∧ state_dicts_almost_equal example_differs [("a", 1)] [("a", 1); ("b", 3)] = true.
Proof. vm_compute. done. Qed.

Example remap_key_examples :
  remap_key true "to_q.weight" [("to_q.base_layer.weight", 0)] = "to_q.base_layer.weight"
  ∧ remap_key true "to_q.weight" [("to_q.weight", 0)] = "to_q.weight"
  ∧ remap_key true "to_q.bias" ([] : PyDict.t nat) = "to_q.base_layer.bias"
  ∧ remap_key true "scale" ([] : PyDict.t nat) = "scale"
  ∧ remap_key false "to_q.weight" ([] : PyDict.t nat) = "to_q.weight".
Proof. vm_compute. done. Qed.

Lemma set_ip_adapter_scale_without_ip_adapter_witness :
  set_ip_adapter_scale example_plain_pipeline (ScaleList [1; 2; 3])
  = (example_plain_pipeline, Returns ()).
Proof.
  apply set_ip_adapter_scale_without_ip_adapter. repeat constructor.
Defined.

Lemma set_ip_adapter_scale_list_not_atomic_witness :
  (set_ip_adapter_scale example_pipeline (ScaleList [7; 8])).2
  = Raises (ValueError
      "`scale` should be a list of same length as the number if ip-adapters Expected 1 but got 2.")
  ∧ attn_processors (unet (set_ip_adapter_scale example_pipeline (ScaleList [7; 8])).1)
    = [("down.attn1", AttnProcessor);
       ("down.attn2", IPAdapterAttnProcessor [7; 8]);
       ("mid.attn1", OtherAttnProcessor "XFormersAttnProcessor");
       ("mid.attn2", IPAdapterAttnProcessor2_0 [1]);
       ("up.attn2", IPAdapterAttnProcessor [1; 1])].
Proof.
  rewrite (set_ip_adapter_scale_list_not_atomic example_pipeline
             [("down.attn1", AttnProcessor);
              ("down.attn2", IPAdapterAttnProcessor [1; 1]);
              ("mid.attn1", OtherAttnProcessor "XFormersAttnProcessor")]
             [("up.attn2", IPAdapterAttnProcessor [1; 1])]
             "mid.attn2" (IPAdapterAttnProcessor2_0 [1]) [1] [7; 8]).
  - split; reflexivity.
  - reflexivity.
  - repeat constructor; simpl; intros s Hs; by inversion Hs.
  - reflexivity.
  - simpl. lia.
Defined.

Lemma set_ip_adapter_scale_list_idempotent_witness :
  set_ip_adapter_scale
    (set_ip_adapter_scale example_pipeline_two_adapters (ScaleList [3; 4])).1
    (ScaleList [3; 4])
  = ((set_ip_adapter_scale example_pipeline_two_adapters (ScaleList [3; 4])).1,
     Returns ()).
Proof.
  apply set_ip_adapter_scale_list_idempotent. exact I.
Defined.

Lemma load_ip_adapter_unet_all_or_nothing_witness :
  unet (load_ip_adapter example_env example_pipeline
          (Many [SrcDict example_state_dict; SrcDict example_swapped_dict])
          (One "models") (Many ["first.bin"; "second.bin"])
          (Some "image_encoder") false).1
  = unet example_pipeline.
Proof.
  exact (load_ip_adapter_unet_all_or_nothing example_env example_pipeline
           (Many [SrcDict example_state_dict; SrcDict example_swapped_dict])
           (One "models") (Many ["first.bin"; "second.bin"])
           (Some "image_encoder") false (λ _ _ _, eq_refl)).
Defined.

Lemma load_ip_adapter_equipped_pipeline_witness :
  attrs (load_ip_adapter example_env example_pipeline
           (One (SrcName "h94/IP-Adapter")) (One "models")
           (One "ip-adapter_sd15.safetensors") (Some "image_encoder") false).1
  = attrs example_pipeline
  ∧ config (load_ip_adapter example_env example_pipeline
              (One (SrcName "h94/IP-Adapter")) (One "models")
              (One "ip-adapter_sd15.safetensors") (Some "image_encoder") false).1
    = config example_pipeline.
Proof.
  assert (is_unset example_pipeline "image_encoder" = false) as Himg
      by (vm_compute; reflexivity).
  assert (is_unset example_pipeline "feature_extractor" = false) as Hfe
      by (vm_compute; reflexivity).
  destruct (load_ip_adapter_equipped_pipeline example_env example_pipeline
              (One (SrcName "h94/IP-Adapter")) (One "models")
              (One "ip-adapter_sd15.safetensors") (Some "image_encoder") false
              Himg Hfe) as (Hattrs & Hconfig & _).
  split; assumption.
Defined.

Lemma load_ip_adapter_dict_without_image_encoder_witness :
  load_ip_adapter example_env example_pipeline_fresh
                  (One (SrcDict example_state_dict)) (One "models") (One "ip-adapter.bin")
                  (Some "image_encoder") false
  = (example_pipeline_fresh, Raises image_encoder_error).
Proof.
  apply load_ip_adapter_dict_without_image_encoder.
  - vm_compute. reflexivity.
  - reflexivity.
  - exact I.
Defined.

Lemma load_ip_adapter_no_weight_names_witness :
  (load_ip_adapter example_env example_pipeline
                   (One (SrcName "h94/IP-Adapter")) (One "models") (Many [])
                   (Some "image_encoder") false).2
  = Returns ().
Proof.
  rewrite (load_ip_adapter_no_weight_names example_env example_pipeline
             (SrcName "h94/IP-Adapter") "models" (Some "image_encoder") false I).
  reflexivity.
Defined.

Lemma load_safetensors_lookup_witness :
  ∃ inner,
    PyDict.get (load_safetensors example_env "h94/IP-Adapter/models/ip-adapter_sd15.safetensors")
               "ip_adapter" = Some inner
    ∧ PyDict.get inner "1.to_k_ip.weight" = Some 27.
Proof.
  destruct (load_safetensors_lookup example_env
              "h94/IP-Adapter/models/ip-adapter_sd15.safetensors" "ip_adapter"
              "ip_adapter.1.to_k_ip.weight"
              ["image_proj.proj.weight"] ["optimizer.step"; "ip_adapter.1.to_v_ip.weight"])
    as (inner & Hentry & Hget & _).
  - by right.
  - reflexivity.
  - reflexivity.
  - repeat constructor; simpl; intros Hpre; discriminate.
  - exists inner. split; [exact Hentry|exact Hget].
Defined.

Lemma replace_removes_prefix_witness :
  PyStr.replace "image_proj.proj.weight" "image_proj." "" = "proj.weight".
Proof.
  apply (replace_removes_prefix "image_proj." "proj.weight"); [done|].
  intros (a & b & Heq). pose proof (f_equal String.length Heq) as Hlen.
  rewrite !string_length_append in Hlen. cbn [String.length] in Hlen.
  destruct a as [|c a]; [|cbn [String.length] in Hlen; lia].
  destruct b as [|c b]; [|cbn [String.length] in Hlen; lia].
  discriminate Heq.
Defined.

Lemma state_dicts_almost_equal_insertion_order_witness :
  state_dicts_almost_equal example_differs [("b", 1); ("a", 2)] [("y", 1); ("x", 2)]
  = state_dicts_almost_equal example_differs [("a", 2); ("b", 1)] [("x", 2); ("y", 1)].
Proof.
  apply state_dicts_almost_equal_insertion_order.
  - apply (bool_decide_unpack _). by vm_compute.
  - apply (bool_decide_unpack _). by vm_compute.
  - apply Permutation_swap.
  - apply Permutation_swap.
Defined.

Lemma state_dicts_almost_equal_symmetric_witness :
  state_dicts_almost_equal example_differs [("a", 1); ("b", 2)] [("a", 1); ("b", 3)]
  = state_dicts_almost_equal example_differs [("a", 1); ("b", 3)] [("a", 1); ("b", 2)]
  ∧ state_dicts_almost_equal example_differs [("a", 1); ("b", 2)] [("a", 1); ("b", 2)] = true.
Proof.
  apply state_dicts_almost_equal_symmetric; unfold example_differs.
  - intros a b. by rewrite Nat.eqb_sym.
  - intros a. by rewrite Nat.eqb_refl.
Defined.
